(** * Lost & Found Board: a shallow embedding of the client code

    The development follows the source files of the board:
    - [types/index.ts]            the item and the form input,
    - [utils/imageOptimizer.ts]   [optimizeImage], [createPreviewUrl], [revokePreviewUrl],
    - [services/supabase.ts]      the row mappings and the CRUD calls,
    - [App.tsx]                   the derived view and the create / edit / delete /
                                  status-change flows,
    - [components/ItemForm.tsx]   the form with its image preview.

    The hosted services (the Supabase table, its change feed, the image
    compressor, the uploader) are not part of the code: what they answer is
    an explicit argument of the function that awaits them. *)

From Stdlib Require Import List Bool Arith NArith QArith String Ascii Lia.
Import ListNotations.

#[local] Close Scope Q_scope.
#[local] Open Scope N_scope.
#[local] Open Scope bool_scope.
#[local] Open Scope list_scope.

(** ** JavaScript values used by the code *)

Module JS.

(** A JavaScript string is a sequence of UTF-16 code units. *)
Definition jsstring : Type := list N.

(** Literals of the source, written as Rocq strings. *)
Definition js (s : string) : jsstring :=
  map N_of_ascii (list_ascii_of_string s).

Fixpoint eqb (s t : jsstring) : bool :=
  match s, t with
  | [], [] => true
  | a :: s', b :: t' => (a =? b) && eqb s' t'
  | _, _ => false
  end.

(** [!s] is true exactly for the empty string. *)
Definition falsy (s : jsstring) : bool :=
  match s with [] => true | _ :: _ => false end.

Definition truthy (s : jsstring) : bool := negb (falsy s).

(** [s.startsWith(p)] *)
Fixpoint startsWith (s p : jsstring) : bool :=
  match p, s with
  | [], _ => true
  | _ :: _, [] => false
  | a :: p', b :: s' => (a =? b) && startsWith s' p'
  end.

(** [s.includes(needle)] *)
Fixpoint includes (s needle : jsstring) : bool :=
  startsWith s needle ||
  match s with
  | [] => false
  | _ :: s' => includes s' needle
  end.

(** White space and line terminators of ECMAScript, which [trim] strips. *)
Definition isWhiteSpace (c : N) : bool :=
  (c =? 9) || (c =? 10) || (c =? 11) || (c =? 12) || (c =? 13) || (c =? 32)
  || (c =? 160) || (c =? 5760) || ((8192 <=? c) && (c <=? 8202))
  || (c =? 8232) || (c =? 8233) || (c =? 8239) || (c =? 8287)
  || (c =? 12288) || (c =? 65279).

Fixpoint trimStart (s : jsstring) : jsstring :=
  match s with
  | [] => []
  | c :: s' => if isWhiteSpace c then trimStart s' else s
  end.

Definition trimEnd (s : jsstring) : jsstring := rev (trimStart (rev s)).

(** [s.trim()] *)
Definition trim (s : jsstring) : jsstring := trimEnd (trimStart s).

(** [toLowerCase] on the Basic Latin letters; the view derivation takes the
    lowering function as a parameter and this one instantiates it on
    concrete inputs. *)
Definition lowerUnit (c : N) : N :=
  if (65 <=? c) && (c <=? 90) then c + 32 else c.

Definition asciiToLowerCase (s : jsstring) : jsstring := map lowerUnit s.

(** What a thrown value is: an [Error] with its message, or anything else. *)
Inductive thrown : Type :=
| Error (message : jsstring)
| NotAnError (tag : N).

Definition instanceofError (e : thrown) : bool :=
  match e with Error _ => true | NotAnError _ => false end.

(** The result of running a function body: it returns or it throws.  For
    an [async] function, [Return] is a fulfilled promise and [Throw] a
    rejected one. *)
Inductive outcome (A : Type) : Type :=
| Return (a : A)
| Throw (e : thrown).

Arguments Return {A} a.
Arguments Throw {A} e.

Definition bind {A B : Type} (m : outcome A) (k : A -> outcome B) : outcome B :=
  match m with
  | Return a => k a
  | Throw e => Throw e
  end.

(** [try { m } catch (error) { h error }] *)
Definition try_catch {A : Type} (m : outcome A) (h : thrown -> outcome A) : outcome A :=
  match m with
  | Return a => Return a
  | Throw e => h e
  end.

Definition returns {A : Type} (m : outcome A) : bool :=
  match m with Return _ => true | Throw _ => false end.

End JS.

Import JS.

Declare Scope js_scope.
Delimit Scope js_scope with js.
Notation "x <- m ;; k" := (bind m (fun x => k))
  (at level 61, m at next level, right associativity) : js_scope.
#[local] Open Scope js_scope.

(** ** types/index.ts *)

Inductive ItemType : Type := lost | found.

Inductive Status : Type := active | claimed | resolved.

Definition ItemType_eqb (a b : ItemType) : bool :=
  match a, b with
  | lost, lost | found, found => true
  | _, _ => false
  end.

Definition Status_eqb (a b : Status) : bool :=
  match a, b with
  | active, active | claimed, claimed | resolved, resolved => true
  | _, _ => false
  end.

(** A [Date] is kept as the argument it was constructed from. *)
Inductive Date : Type := new_Date (iso : jsstring).

(** A browser [File]: the code reads its declared content type and its size
    in bytes; [content] stands for the bytes themselves. *)
Record File : Type := mkFile {
  file_type : jsstring;
  size : N;
  content : N
}.

Record LostFoundItem : Type := mkItem {
  id : jsstring;
  type : ItemType;
  title : jsstring;
  description : jsstring;
  location : jsstring;
  contactInfo : jsstring;
  imageUrl : option jsstring;
  createdAt : Date;
  updatedAt : Date;
  status : Status
}.

Record LostFoundItemInput : Type := mkInput {
  in_type : ItemType;
  in_title : jsstring;
  in_description : jsstring;
  in_location : jsstring;
  in_contactInfo : jsstring;
  in_image : option File
}.

(** [Partial<Omit<LostFoundItem, 'id' | 'createdAt' | 'updatedAt'>>]: every
    key may be missing. *)
Record PartialItem : Type := mkPartial {
  p_type : option ItemType;
  p_title : option jsstring;
  p_description : option jsstring;
  p_location : option jsstring;
  p_contactInfo : option jsstring;
  p_imageUrl : option jsstring;
  p_status : option Status
}.

(** ** utils/imageOptimizer.ts *)

Module ImageOptimizer.

(** A key of an options object: missing, present with the value
    [undefined], or present with a value. *)
Inductive key (A : Type) : Type :=
| Missing
| Undefined
| Given (a : A).

Arguments Missing {A}.
Arguments Undefined {A}.
Arguments Given {A} a.

(** Reading the property: a value, or [undefined]. *)
Definition read {A : Type} (k : key A) : option A :=
  match k with
  | Given a => Some a
  | Missing | Undefined => None
  end.

(** Every key of the options object is optional. *)
Record ImageOptimizationOptions : Type := mkOptions {
  maxSizeMB : key Q;
  maxWidthOrHeight : key N;
  useWebWorker : key bool
}.

Definition defaultOptions : ImageOptimizationOptions :=
  {| maxSizeMB := Given (5 # 2)%Q;
     maxWidthOrHeight := Given 1920;
     useWebWorker := Given true |}.

Definition noOptions : ImageOptimizationOptions :=
  {| maxSizeMB := Missing; maxWidthOrHeight := Missing;
     useWebWorker := Missing |}.

(** A key that is present in [b] wins, also with the value [undefined]. *)
Definition override {A : Type} (a b : key A) : key A :=
  match b with Missing => a | Undefined | Given _ => b end.

(** [{ ...a, ...b }] *)
Definition spread (a b : ImageOptimizationOptions) : ImageOptimizationOptions :=
  {| maxSizeMB := override (maxSizeMB a) (maxSizeMB b);
     maxWidthOrHeight := override (maxWidthOrHeight a) (maxWidthOrHeight b);
     useWebWorker := override (useWebWorker a) (useWebWorker b) |}.

(** The object handed to [imageCompression]; a property can hold
    [undefined]. *)
Record CompressionOptions : Type := mkCompression {
  c_maxSizeMB : option Q;
  c_maxWidthOrHeight : option N;
  c_useWebWorker : option bool;
  c_fileType : jsstring
}.

Definition MB : N := 1024 * 1024.

Definition msg_not_image : jsstring := js "File must be an image".
Definition msg_too_large : jsstring :=
  js "Image is too large. Maximum size is 10MB before optimization.".
Definition msg_not_below_3MB : jsstring :=
  js "Image could not be compressed below 3MB. Please use a smaller image.".
Definition msg_failed : jsstring := js "Failed to optimize image".

Definition throw_if {A : Type} (b : bool) (message : jsstring) (k : outcome A) : outcome A :=
  if b then Throw (Error message) else k.

Section Optimize.

(** [browser-image-compression]: given the file and the options it answers
    with a file or it throws. *)
Variable imageCompression : File -> CompressionOptions -> outcome File.

Definition optimizeImage (file : File) (options : ImageOptimizationOptions)
  : outcome File :=
  let mergedOptions := spread defaultOptions options in
  try_catch
    (throw_if (negb (startsWith (file_type file) (js "image/"))) msg_not_image
      (throw_if (10 * MB <? size file) msg_too_large
        (compressedFile <- imageCompression file
            {| c_maxSizeMB := read (maxSizeMB mergedOptions);
               c_maxWidthOrHeight := read (maxWidthOrHeight mergedOptions);
               c_useWebWorker := read (useWebWorker mergedOptions);
               c_fileType := file_type file |} ;;
         if 3 * MB <? size compressedFile then
           moreCompressed <- imageCompression file
               {| c_maxSizeMB := Some (2 # 1)%Q;
                  c_maxWidthOrHeight := Some 1600;
                  c_useWebWorker := read (useWebWorker mergedOptions);
                  c_fileType := file_type file |} ;;
           throw_if (3 * MB <? size moreCompressed) msg_not_below_3MB
             (Return moreCompressed)
         else Return compressedFile)))
    (fun error =>
       if instanceofError error then Throw error
       else Throw (Error msg_failed)).

End Optimize.

(** The browser's table of object URLs: those handed out by
    [URL.createObjectURL] and not revoked since. *)
Definition ObjectURLs : Type := list jsstring.

(** [createPreviewUrl(file)]; [url] is the string the browser hands out. *)
Definition createPreviewUrl (url : jsstring) (file : File) (live : ObjectURLs)
  : jsstring * ObjectURLs :=
  (url, url :: live).

(** [revokePreviewUrl(url)] *)
Definition revokePreviewUrl (url : jsstring) (live : ObjectURLs) : ObjectURLs :=
  filter (fun u => negb (JS.eqb u url)) live.

End ImageOptimizer.

(** ** services/storage.ts *)

Module Storage.

(** [deleteImage] only logs: nothing is removed and nothing is thrown. *)
Definition deleteImage (imageUrl : jsstring) : outcome unit := Return tt.

End Storage.

(** ** services/supabase.ts *)

Module Supabase.

Record Config : Type := mkConfig {
  SUPABASE_URL : jsstring;
  SUPABASE_ANON_KEY : jsstring
}.

(** [!SUPABASE_URL || !SUPABASE_ANON_KEY], on the two constants of the
    module.  The functions below take the constants as they are; the body
    of the module, which runs before any of them can be called, is in
    [ModuleBody]. *)
Definition not_configured (cfg : Config) : bool :=
  falsy (SUPABASE_URL cfg) || falsy (SUPABASE_ANON_KEY cfg).

(** A nullable column of a wire row: the key is missing, holds [null], or
    holds a value. *)
Inductive column (A : Type) : Type :=
| Absent
| Null
| Value (a : A).

Arguments Absent {A}.
Arguments Null {A}.
Arguments Value {A} a.

(** A row of [lost_found_items] as a read returns it. *)
Record Row : Type := mkRow {
  r_id : jsstring;
  r_type : ItemType;
  r_title : jsstring;
  r_description : jsstring;
  r_location : jsstring;
  contact_info : jsstring;
  image_url : column jsstring;
  r_status : column Status;
  created_at : jsstring;
  updated_at : jsstring
}.

(** [row.image_url || undefined] *)
Definition or_undefined (c : column jsstring) : option jsstring :=
  match c with
  | Value s => if truthy s then Some s else None
  | Absent | Null => None
  end.

(** [row.status || 'active']: each of the three status strings is truthy. *)
Definition or_active (c : column Status) : Status :=
  match c with
  | Value s => s
  | Absent | Null => active
  end.

Definition rowToItem (row : Row) : LostFoundItem :=
  {| id := r_id row;
     type := r_type row;
     title := r_title row;
     description := r_description row;
     location := r_location row;
     contactInfo := contact_info row;
     imageUrl := or_undefined (image_url row);
     status := or_active (r_status row);
     createdAt := new_Date (created_at row);
     updatedAt := new_Date (updated_at row) |}.

(** The object sent with an insert or an update.  A key whose value is
    [undefined] ([None], [Absent]) is left out of the request body; a
    [null] is sent. *)
Record RowPayload : Type := mkPayload {
  w_type : option ItemType;
  w_title : option jsstring;
  w_description : option jsstring;
  w_location : option jsstring;
  w_contact_info : option jsstring;
  w_image_url : column jsstring;
  w_status : column Status;
  w_updated_at : option jsstring
}.

(** [item.imageUrl || null] *)
Definition or_null (u : option jsstring) : column jsstring :=
  match u with
  | Some s => if truthy s then Value s else Null
  | None => Null
  end.

(** [item.status || 'active'] *)
Definition status_or_active (s : option Status) : column Status :=
  match s with
  | Some v => Value v
  | None => Value active
  end.

Definition itemToRow (item : PartialItem) : RowPayload :=
  {| w_type := p_type item;
     w_title := p_title item;
     w_description := p_description item;
     w_location := p_location item;
     w_contact_info := p_contactInfo item;
     w_image_url := or_null (p_imageUrl item);
     w_status := status_or_active (p_status item);
     w_updated_at := None |}.

(** What [await supabase.from(...)...] yields: the call throws (the
    transport failed), or it answers with [{ data, error }]. *)
Inductive response (A : Type) : Type :=
| Failed (e : thrown)
| Answer (data : option A) (error : option thrown).

Arguments Failed {A} e.
Arguments Answer {A} data error.

Definition log_and_return {A : Type} (a : A) : thrown -> outcome A :=
  fun _ => Return a.

(** [data || []] *)
Definition or_empty (data : option (list Row)) : list Row :=
  match data with Some rows => rows | None => [] end.

Definition read_body (cfg : Config) (r : response (list Row))
  : outcome (list LostFoundItem) :=
  if not_configured cfg then Return []
  else
    match r with
    | Failed e => Throw e
    | Answer _ (Some _) => Return []
    | Answer data None => Return (map rowToItem (or_empty data))
    end.

(** [getLostFoundItems()]; [r] answers the [select('*').order(...)]. *)
Definition getLostFoundItems (cfg : Config) (r : response (list Row))
  : outcome (list LostFoundItem) :=
  try_catch (read_body cfg r) (log_and_return []).

(** [getLostFoundItemsByType(type)]; [r] answers the query with
    [.eq('type', type)]. *)
Definition getLostFoundItemsByType (cfg : Config) (ty : ItemType)
    (r : ItemType -> response (list Row)) : outcome (list LostFoundItem) :=
  try_catch (read_body cfg (r ty)) (log_and_return []).

(** [getLostFoundItem(id)]; [r] answers the query with [.eq('id', id).single()]. *)
Definition getLostFoundItem (cfg : Config) (i : jsstring)
    (r : jsstring -> response Row) : outcome (option LostFoundItem) :=
  try_catch
    (if not_configured cfg then Return None
     else
       match r i with
       | Failed e => Throw e
       | Answer _ (Some _) => Return None
       | Answer (Some row) None => Return (Some (rowToItem row))
       | Answer None None => Return None
       end)
    (log_and_return None).

(** *** The hosted table

    The table itself lives in the hosted service.  Its rows are kept as a
    list in the order the reads ask for (by creation time, most recent
    first); a write names the columns it sets, and a column the request
    body leaves out keeps its stored value. *)

Definition Table : Type := list Row.

Definition set_required {A : Type} (sent : option A) (stored : A) : A :=
  match sent with Some v => v | None => stored end.

Definition set_nullable {A : Type} (sent stored : column A) : column A :=
  match sent with Absent => stored | Null | Value _ => sent end.

(** [update(row)] on one stored row. *)
Definition patch (p : RowPayload) (r : Row) : Row :=
  {| r_id := r_id r;
     r_type := set_required (w_type p) (r_type r);
     r_title := set_required (w_title p) (r_title r);
     r_description := set_required (w_description p) (r_description r);
     r_location := set_required (w_location p) (r_location r);
     contact_info := set_required (w_contact_info p) (contact_info r);
     image_url := set_nullable (w_image_url p) (image_url r);
     r_status := set_nullable (w_status p) (r_status r);
     created_at := created_at r;
     updated_at := set_required (w_updated_at p) (updated_at r) |}.

(** [.update(row).eq('id', id)] *)
Definition table_update (i : jsstring) (p : RowPayload) (t : Table) : Table :=
  map (fun r => if JS.eqb (r_id r) i then patch p r else r) t.

(** [.delete().eq('id', id)] *)
Definition table_delete (i : jsstring) (t : Table) : Table :=
  filter (fun r => negb (JS.eqb (r_id r) i)) t.

(** Modelled from the spec: the schema of the table ([supabase-setup.sql])
    is not among the sources.  On [.insert(row).select().single()] "the
    backing store assigns id, createdAt, updatedAt", a new item has
    createdAt = updatedAt, and an insert the store rejects fails; the
    columns the request names are stored as sent.  Which rows the store
    rejects is not said: here it is a row that lacks a required column. *)
Definition table_insert (fresh now : jsstring) (p : RowPayload) : option Row :=
  match w_type p, w_title p, w_description p, w_location p, w_contact_info p with
  | Some ty, Some ti, Some de, Some lo, Some co =>
      Some {| r_id := fresh; r_type := ty; r_title := ti; r_description := de;
              r_location := lo; contact_info := co;
              image_url := set_nullable (w_image_url p) Null;
              r_status := set_nullable (w_status p) Null;
              created_at := now; updated_at := now |}
  | _, _, _, _, _ => None
  end.

(** What surrounds one request: the configuration, the clock, the id the
    table would assign, and the error the service answers with, if any. *)
Record Request : Type := mkRequest {
  config : Config;
  now : jsstring;
  fresh_id : jsstring;
  rejection : option thrown
}.

Definition msg_not_configured : jsstring := js "Supabase not configured".
Definition msg_rejected : jsstring := js "null value violates not-null constraint".

Definition rethrow {A : Type} : thrown -> outcome A := fun e => Throw e.

(** [Omit<LostFoundItem, 'id' | 'createdAt' | 'updatedAt'>], the argument of
    [addLostFoundItem], seen as the partial item [itemToRow] takes. *)
Definition newItem (ty : ItemType) (ti de lo co : jsstring)
    (image : option jsstring) (st : Status) : PartialItem :=
  {| p_type := Some ty; p_title := Some ti; p_description := Some de;
     p_location := Some lo; p_contactInfo := Some co;
     p_imageUrl := image; p_status := Some st |}.

Definition addLostFoundItem (q : Request) (item : PartialItem) (t : Table)
  : outcome (jsstring * Table) :=
  try_catch
    (throw_if_not_configured <- (if not_configured (config q)
                                 then Throw (Error msg_not_configured)
                                 else Return tt) ;;
     let row := itemToRow item in
     match rejection q with
     | Some error => Throw error
     | None =>
         match table_insert (fresh_id q) (now q) row with
         | Some data => Return (r_id data, data :: t)
         | None => Throw (Error msg_rejected)
         end
     end)
    rethrow.

(** [row.updated_at = new Date().toISOString()] *)
Definition stamp (at_ : jsstring) (row : RowPayload) : RowPayload :=
  {| w_type := w_type row; w_title := w_title row;
     w_description := w_description row; w_location := w_location row;
     w_contact_info := w_contact_info row; w_image_url := w_image_url row;
     w_status := w_status row; w_updated_at := Some at_ |}.

Definition updateLostFoundItem (q : Request) (i : jsstring)
    (updates : PartialItem) (t : Table) : outcome Table :=
  try_catch
    (throw_if_not_configured <- (if not_configured (config q)
                                 then Throw (Error msg_not_configured)
                                 else Return tt) ;;
     let row := stamp (now q) (itemToRow updates) in
     match rejection q with
     | Some error => Throw error
     | None => Return (table_update i row t)
     end)
    rethrow.

Definition deleteLostFoundItem (q : Request) (i : jsstring) (t : Table)
  : outcome Table :=
  try_catch
    (throw_if_not_configured <- (if not_configured (config q)
                                 then Throw (Error msg_not_configured)
                                 else Return tt) ;;
     match rejection q with
     | Some error => Throw error
     | None => Return (table_delete i t)
     end)
    rethrow.

(** The stored row of an id, when there is one. *)
Definition stored (i : jsstring) (t : Table) : option Row :=
  find (fun r => JS.eqb (r_id r) i) t.

End Supabase.

(** ** App.tsx *)

Module App.

Import Supabase.

(** The filter state: ['all' | 'lost' | 'found']. *)
Inductive Filter : Type := all | only (kind : ItemType).

(** [filter === 'all'] *)
Definition is_all (filter : Filter) : bool :=
  match filter with all => true | only _ => false end.

(** [item.type === filter] *)
Definition type_is (ty : ItemType) (filter : Filter) : bool :=
  match filter with all => false | only kind => ItemType_eqb ty kind end.

Section View.

(** [String.prototype.toLowerCase] *)
Variable toLowerCase : jsstring -> jsstring.

(** The three blocks of the filter effect, each as the function it applies
    to [filtered]. *)
Definition byType (filter : Filter) (filtered : list LostFoundItem)
  : list LostFoundItem :=
  if negb (is_all filter)
  then List.filter (fun item => type_is (type item) filter) filtered
  else filtered.

Definition byStatus (filter : Filter) (filtered : list LostFoundItem)
  : list LostFoundItem :=
  List.filter (fun item => Status_eqb (status item) active || is_all filter) filtered.

Definition matches (query : jsstring) (item : LostFoundItem) : bool :=
  includes (toLowerCase (title item)) query
  || includes (toLowerCase (description item)) query
  || includes (toLowerCase (location item)) query.

Definition bySearch (searchQuery : jsstring) (filtered : list LostFoundItem)
  : list LostFoundItem :=
  if truthy (trim searchQuery)
  then let query := toLowerCase searchQuery in
       List.filter (matches query) filtered
  else filtered.

(** The value the effect hands to [setFilteredItems]. *)
Definition filteredItems (items : list LostFoundItem) (filter : Filter)
    (searchQuery : jsstring) : list LostFoundItem :=
  let filtered := items in
  let filtered := byType filter filtered in
  let filtered := byStatus filter filtered in
  let filtered := bySearch searchQuery filtered in
  filtered.

(** *** The derived view in the words of the specification

    Kind filter (['all'] passes every kind), then only active items unless
    the filter is ['all'], then the items where the query is a
    case-insensitive substring of title, description or location. *)

Definition ci_substring (q s : jsstring) : bool :=
  includes (toLowerCase s) (toLowerCase q).

Definition spec_kind (filter : Filter) (item : LostFoundItem) : bool :=
  match filter with
  | all => true
  | only kind => ItemType_eqb (type item) kind
  end.

Definition spec_visible (filter : Filter) (item : LostFoundItem) : bool :=
  match filter with
  | all => true
  | only _ => Status_eqb (status item) active
  end.

Definition ci_match (q : jsstring) (item : LostFoundItem) : bool :=
  ci_substring q (title item)
  || ci_substring q (description item)
  || ci_substring q (location item).

(** "an empty query passes everything" *)
Definition spec_text (q : jsstring) (item : LostFoundItem) : bool :=
  falsy q || ci_match q item.

Definition spec_view (items : list LostFoundItem) (filter : Filter)
    (q : jsstring) : list LostFoundItem :=
  List.filter (spec_text q)
    (List.filter (spec_visible filter)
      (List.filter (spec_kind filter) items)).

(** The same with a blank query (empty once trimmed) passing everything. *)
Definition blank_text (q : jsstring) (item : LostFoundItem) : bool :=
  falsy (trim q) || ci_match q item.

Definition blank_view (items : list LostFoundItem) (filter : Filter)
    (q : jsstring) : list LostFoundItem :=
  List.filter (blank_text q)
    (List.filter (spec_visible filter)
      (List.filter (spec_kind filter) items)).

End View.

(** *** The write flows *)

(** What surrounds one user action: the request to the table, the answer
    of [uploadImage], the reading of [Date.now()], and the answer to the
    confirmation dialog. *)
Record Env : Type := mkEnv {
  request : Request;
  uploadImage : File -> jsstring -> outcome jsstring;
  Date_now : jsstring;
  confirm : bool
}.

Definition with_imageUrl (updates : PartialItem) (url : jsstring) : PartialItem :=
  {| p_type := p_type updates; p_title := p_title updates;
     p_description := p_description updates; p_location := p_location updates;
     p_contactInfo := p_contactInfo updates; p_imageUrl := Some url;
     p_status := p_status updates |}.

(** [if (x) await deleteImage(x)] for an optional string [x]. *)
Definition deleteImage_if (u : option jsstring) : outcome unit :=
  match u with
  | Some url => if truthy url then Storage.deleteImage url else Return tt
  | None => Return tt
  end.

Definition handleSubmitForm (env : Env) (editingItem : option LostFoundItem)
    (data : LostFoundItemInput) (t : Table) : outcome Table :=
  try_catch
    match editingItem with
    | Some editing =>
        let updates :=
          {| p_type := Some (in_type data);
             p_title := Some (in_title data);
             p_description := Some (in_description data);
             p_location := Some (in_location data);
             p_contactInfo := Some (in_contactInfo data);
             p_imageUrl := None;
             p_status := None |} in
        updates <- match in_image data with
                   | Some image =>
                       deleted <- deleteImage_if (imageUrl editing) ;;
                       url <- uploadImage env image (id editing) ;;
                       Return (with_imageUrl updates url)
                   | None => Return updates
                   end ;;
        updateLostFoundItem (request env) (id editing) updates t
    | None =>
        let tempId := js "temp_" ++ Date_now env in
        url <- match in_image data with
               | Some image =>
                   u <- uploadImage env image tempId ;; Return (Some u)
               | None => Return None
               end ;;
        added <- addLostFoundItem (request env)
                   (newItem (in_type data) (in_title data) (in_description data)
                            (in_location data) (in_contactInfo data) url active) t ;;
        Return (snd added)
    end
    rethrow.

(** [handleStatusChange]: a failure is reported and the table is as before. *)
Definition handleStatusChange (env : Env) (i : jsstring) (st : Status)
    (t : Table) : Table :=
  match updateLostFoundItem (request env) i
          {| p_type := None; p_title := None; p_description := None;
             p_location := None; p_contactInfo := None; p_imageUrl := None;
             p_status := Some st |} t with
  | Return t' => t'
  | Throw _ => t
  end.

(** [handleDeleteItem]; [items] is the list the view holds. *)
Definition handleDeleteItem (env : Env) (items : list LostFoundItem)
    (i : jsstring) (t : Table) : Table :=
  if negb (confirm env) then t
  else
    let item := find (fun it => JS.eqb (id it) i) items in
    match (deleted <- deleteImage_if (match item with
                                      | Some it => imageUrl it
                                      | None => None
                                      end) ;;
           deleteLostFoundItem (request env) i t) with
    | Return t' => t'
    | Throw _ => t
    end.

(** A run of edit submissions, each with its surroundings, the item the
    form was opened on and the submitted data; it stops at the first one
    that fails. *)
Fixpoint edits (subs : list (Env * LostFoundItem * LostFoundItemInput))
    (t : Table) : outcome Table :=
  match subs with
  | [] => Return t
  | (env, editing, data) :: rest =>
      t' <- handleSubmitForm env (Some editing) data t ;;
      edits rest t'
  end.

(** The type the edit forms submitted last for item [i], starting from [ty]. *)
Definition submitted_type (i : jsstring)
    (subs : list (Env * LostFoundItem * LostFoundItemInput)) (ty : ItemType)
  : ItemType :=
  fold_left
    (fun acc sub =>
       match sub with
       | (_, editing, data) => if JS.eqb (id editing) i then in_type data else acc
       end)
    subs ty.

End App.

(** ** services/supabase.ts: [subscribeToLostFoundItems]

    The subscription is followed through the event loop.  A read started
    by [getLostFoundItems().then(callback)] either settles without awaiting
    (no configuration) and queues its reaction at once, or goes out to the
    service and queues its reaction when the answer arrives.  Queued
    reactions run before the next timer tick, change event or answer is
    handled. *)

Module Subscription.

Import Supabase.

(** What started a read. *)
Inductive origin : Type :=
| initial   (* the call in [subscribeToLostFoundItems] itself *)
| change    (* the [postgres_changes] handler *)
| poll.     (* the [setInterval] handler *)

Definition origin_eqb (a b : origin) : bool :=
  match a, b with
  | initial, initial | change, change | poll, poll => true
  | _, _ => false
  end.

Definition delivery : Type := (origin * list LostFoundItem)%type.

Record State : Type := mkState {
  cfg : Config;
  requested : list origin;   (* reads started so far, oldest first *)
  inflight : list origin;    (* reads awaiting the answer of the service *)
  jobs : list delivery;      (* reactions queued, oldest first *)
  delivered : list delivery; (* calls of [callback] so far, oldest first *)
  interval : bool;           (* the polling timer is set *)
  channel : bool             (* the change channel is subscribed *)
}.

Definition created (c : Config) : State :=
  {| cfg := c; requested := []; inflight := []; jobs := []; delivered := [];
     interval := false; channel := false |}.

(** [getLostFoundItems().then(callback)] *)
Definition fetch_then_callback (o : origin) (st : State) : State :=
  if not_configured (cfg st)
  then {| cfg := cfg st; requested := requested st ++ [o];
          inflight := inflight st;
          jobs := jobs st ++ [(o, [])];
          delivered := delivered st;
          interval := interval st; channel := channel st |}
  else {| cfg := cfg st; requested := requested st ++ [o];
          inflight := inflight st ++ [o];
          jobs := jobs st;
          delivered := delivered st;
          interval := interval st; channel := channel st |}.

Definition set_interval (b : bool) (st : State) : State :=
  {| cfg := cfg st; requested := requested st; inflight := inflight st;
     jobs := jobs st; delivered := delivered st;
     interval := b; channel := channel st |}.

Definition set_channel (b : bool) (st : State) : State :=
  {| cfg := cfg st; requested := requested st; inflight := inflight st;
     jobs := jobs st; delivered := delivered st;
     interval := interval st; channel := b |}.

(** The state the call leaves behind. *)
Definition subscribeToLostFoundItems (c : Config) : State :=
  if not_configured c
  then set_interval true (fetch_then_callback initial (created c))
  else set_channel true (fetch_then_callback initial (created c)).

(** The function the call returns. *)
Definition unsubscribe (st : State) : State :=
  if not_configured (cfg st) then set_interval false st else set_channel false st.

Definition remove_nth {A : Type} (k : nat) (l : list A) : list A :=
  firstn k l ++ skipn (S k) l.

(** The rest of [getLostFoundItems] once the service answered the [k]-th
    outstanding read, and the reaction it queues when it fulfils. *)
Definition answer (k : nat) (r : response (list Row)) (st : State) : option State :=
  match nth_error (inflight st) k with
  | None => None
  | Some o =>
      Some {| cfg := cfg st; requested := requested st;
              inflight := remove_nth k (inflight st);
              jobs := match getLostFoundItems (cfg st) r with
                      | Return items => jobs st ++ [(o, items)]
                      | Throw _ => jobs st
                      end;
              delivered := delivered st;
              interval := interval st; channel := channel st |}
  end.

(** Running the oldest queued reaction calls [callback]. *)
Definition run_job (st : State) : option State :=
  match jobs st with
  | [] => None
  | j :: rest =>
      Some {| cfg := cfg st; requested := requested st; inflight := inflight st;
              jobs := rest; delivered := delivered st ++ [j];
              interval := interval st; channel := channel st |}
  end.

Inductive event : Type :=
| tick                                         (* the interval fires *)
| changed                                      (* a change event arrives *)
| answered (k : nat) (r : response (list Row)) (* the service answers a read *)
| job                                          (* a queued reaction runs *)
| stop.                                        (* the returned function is called *)

Definition idle (st : State) : bool :=
  match jobs st with [] => true | _ :: _ => false end.

(** One turn of the event loop; [None] when the event cannot happen. *)
Definition step (e : event) (st : State) : option State :=
  match e with
  | job => run_job st
  | tick => if idle st && interval st
            then Some (fetch_then_callback poll st) else None
  | changed => if idle st && channel st
               then Some (fetch_then_callback change st) else None
  | answered k r => if idle st then answer k r st else None
  | stop => if idle st then Some (unsubscribe st) else None
  end.

Fixpoint run (trace : list event) (st : State) : option State :=
  match trace with
  | [] => Some st
  | e :: rest =>
      match step e st with
      | Some st' => run rest st'
      | None => None
      end
  end.

Definition is_initial (d : delivery) : bool := origin_eqb (fst d) initial.

(** [callback] was called with the result of the initial read. *)
Definition initial_delivered (st : State) : bool :=
  existsb is_initial (delivered st).

(** No delivery came before the one of the initial read. *)
Definition initial_first (st : State) : bool :=
  match delivered st with
  | [] => true
  | (o, _) :: _ => origin_eqb o initial
  end.

Fixpoint index_of (o : origin) (l : list origin) : option nat :=
  match l with
  | [] => None
  | x :: rest =>
      if origin_eqb x o then Some O
      else match index_of o rest with
           | Some k => Some (S k)
           | None => None
           end
  end.

(** The events that bring the initial read to [callback] from [st] when
    the service answers it with [r]: the queued reactions run, then the
    answer arrives and its reaction runs.  No timer tick and no change
    event is among them. *)
Definition finish (r : response (list Row)) (st : State) : list event :=
  repeat job (List.length (jobs st)) ++
  (if existsb is_initial (delivered st ++ jobs st)
   then []
   else match index_of initial (inflight st) with
        | Some k => [answered k r; job]
        | None => []
        end).

(** What holds of the subscription of configuration [c] at every moment. *)
Record invariant (c : Config) (st : State) : Prop := {
  inv_cfg : cfg st = c;
  inv_first_request : hd_error (requested st) = Some initial;
  inv_pending :
    existsb is_initial (delivered st ++ jobs st) = true
    \/ In initial (inflight st);
  inv_polling :
    not_configured c = true ->
    inflight st = []
    /\ Forall (fun d => snd d = []) (delivered st ++ jobs st)
    /\ exists rest, delivered st ++ jobs st = (initial, []) :: rest
}.

End Subscription.

(** ** components/ItemForm.tsx *)

Module ItemForm.

Import ImageOptimizer.

Record FormData : Type := mkFormData {
  f_type : ItemType;
  f_title : jsstring;
  f_description : jsstring;
  f_location : jsstring;
  f_contactInfo : jsstring
}.

Record State : Type := mkForm {
  item : option LostFoundItem;       (* the [item] prop *)
  formData : FormData;
  imagePreview : option jsstring;
  imageFile : option File;
  live : ObjectURLs;                 (* object URLs not revoked *)
  previews : list jsstring;          (* what [createPreviewUrl] returned to the form *)
  closed : bool                      (* [onSubmit] succeeded: the parent closed the form *)
}.

(** [s || null] for an optional string. *)
Definition or_null (s : option jsstring) : option jsstring :=
  match s with
  | Some u => if truthy u then Some u else None
  | None => None
  end.

Definition defined (s : option jsstring) : bool :=
  match or_null s with Some _ => true | None => false end.

(** [item?.imageUrl] *)
Definition item_imageUrl (it : option LostFoundItem) : option jsstring :=
  match it with Some i => imageUrl i | None => None end.

(** The state of a form just opened, on [it] or empty. *)
Definition opened (it : option LostFoundItem) (urls : ObjectURLs) : State :=
  {| item := it;
     formData :=
       match it with
       | Some i =>
           {| f_type := type i; f_title := title i;
              f_description := description i; f_location := location i;
              f_contactInfo := contactInfo i |}
       | None =>
           {| f_type := lost; f_title := []; f_description := [];
              f_location := []; f_contactInfo := [] |}
       end;
     imagePreview := or_null (item_imageUrl it);
     imageFile := None;
     live := urls;
     previews := [];
     closed := false |}.

(** The [name] and [value] of the input that changed. *)
Inductive change : Type :=
| set_type (value : ItemType)
| set_title (value : jsstring)
| set_description (value : jsstring)
| set_location (value : jsstring)
| set_contactInfo (value : jsstring).

Definition set_field (c : change) (prev : FormData) : FormData :=
  match c with
  | set_type v =>
      {| f_type := v; f_title := f_title prev;
         f_description := f_description prev; f_location := f_location prev;
         f_contactInfo := f_contactInfo prev |}
  | set_title v =>
      {| f_type := f_type prev; f_title := v;
         f_description := f_description prev; f_location := f_location prev;
         f_contactInfo := f_contactInfo prev |}
  | set_description v =>
      {| f_type := f_type prev; f_title := f_title prev;
         f_description := v; f_location := f_location prev;
         f_contactInfo := f_contactInfo prev |}
  | set_location v =>
      {| f_type := f_type prev; f_title := f_title prev;
         f_description := f_description prev; f_location := v;
         f_contactInfo := f_contactInfo prev |}
  | set_contactInfo v =>
      {| f_type := f_type prev; f_title := f_title prev;
         f_description := f_description prev; f_location := f_location prev;
         f_contactInfo := v |}
  end.

Definition handleInputChange (c : change) (st : State) : State :=
  {| item := item st; formData := set_field c (formData st);
     imagePreview := imagePreview st; imageFile := imageFile st;
     live := live st; previews := previews st; closed := closed st |}.

(** [handleImageChange]; [url] is what the browser hands out for the file. *)
Definition handleImageChange (file : option File) (url : jsstring) (st : State)
  : State :=
  match file with
  | None => st
  | Some f =>
      if negb (startsWith (file_type f) (js "image/")) then st
      else if 10 * MB <? size f then st
      else
        let (preview, live') := createPreviewUrl url f (live st) in
        {| item := item st; formData := formData st;
           imagePreview := Some preview; imageFile := Some f;
           live := live'; previews := preview :: previews st;
           closed := closed st |}
  end.

(** [if (imagePreview && !item?.imageUrl) revokePreviewUrl(imagePreview)] *)
Definition release (st : State) : ObjectURLs :=
  match or_null (imagePreview st) with
  | Some preview =>
      if negb (defined (item_imageUrl (item st)))
      then revokePreviewUrl preview (live st)
      else live st
  | None => live st
  end.

Definition handleRemoveImage (st : State) : State :=
  {| item := item st; formData := formData st;
     imagePreview := None; imageFile := None;
     live := release st; previews := previews st; closed := closed st |}.

Definition submitData (st : State) : LostFoundItemInput :=
  {| in_type := f_type (formData st);
     in_title := f_title (formData st);
     in_description := f_description (formData st);
     in_location := f_location (formData st);
     in_contactInfo := f_contactInfo (formData st);
     in_image := imageFile st |}.

(** [handleSubmit]; [onSubmit] is the prop of that name. *)
Definition handleSubmit (onSubmit : LostFoundItemInput -> outcome unit)
    (st : State) : State :=
  if falsy (trim (f_title (formData st)))
     || falsy (trim (f_description (formData st)))
  then st
  else
    match onSubmit (submitData st) with
    | Return _ =>
        {| item := item st; formData := formData st;
           imagePreview := imagePreview st; imageFile := imageFile st;
           live := release st; previews := previews st; closed := true |}
    | Throw _ => st
    end.

(** What the user can do with the image controls: the file input is shown
    only while there is no preview, the remove button only while there is
    one. *)
Inductive action : Type :=
| input (c : change)
| choose (file : File) (url : jsstring)
| remove
| submit (onSubmit : LostFoundItemInput -> outcome unit).

Definition act (a : action) (st : State) : State :=
  if closed st then st else
  match a with
  | input c => handleInputChange c st
  | choose file url =>
      if defined (imagePreview st) then st
      else handleImageChange (Some file) url st
  | remove =>
      if defined (imagePreview st) then handleRemoveImage st else st
  | submit onSubmit => handleSubmit onSubmit st
  end.

Definition acts (l : list action) (st : State) : State :=
  fold_left (fun s a => act a s) l st.

(** [u] is on display: the form is open and [u] is its preview. *)
Definition displayed (u : jsstring) (st : State) : bool :=
  negb (closed st)
  && match imagePreview st with
     | Some shown => JS.eqb u shown
     | None => false
     end.

(** The previews the form created that are neither displayed nor revoked. *)
Definition leaked (st : State) : list jsstring :=
  filter (fun u => existsb (JS.eqb u) (live st) && negb (displayed u st))
    (previews st).

End ItemForm.

(** ** Concrete inputs used below *)

Module Scenario.

Import Supabase.

Definition configured : Config :=
  {| SUPABASE_URL := js "https://board.supabase.co";
     SUPABASE_ANON_KEY := js "anon-key" |}.

Definition unconfigured : Config :=
  {| SUPABASE_URL := []; SUPABASE_ANON_KEY := [] |}.

Definition photo : File :=
  {| file_type := js "image/jpeg"; size := 8 * ImageOptimizer.MB; content := 1 |}.

(** A compressor that answers with a file a quarter of the size. *)
Definition quarter (f : File) (o : ImageOptimizer.CompressionOptions)
  : outcome File :=
  Return {| file_type := ImageOptimizer.c_fileType o;
            size := size f / 4; content := content f |}.

Definition hosted : jsstring :=
  js "https://res.cloudinary.com/demo/image/upload/lost-found-board/bag.jpg".

(** A stored row whose status column is [null] and whose image column is
    the empty string. *)
Definition bare_row : Row :=
  {| r_id := js "item-0"; r_type := found; r_title := js "Keys";
     r_description := js "Keyring"; r_location := js "Gym";
     contact_info := js "c@d.org"; image_url := Value [];
     r_status := Null;
     created_at := js "2024-01-01T08:00:00.000Z";
     updated_at := js "2024-01-01T08:00:00.000Z" |}.

Definition keys : LostFoundItem := rowToItem bare_row.

(** The item of the specification's scenarios. *)
Definition backpack : LostFoundItemInput :=
  {| in_type := lost; in_title := js "Blue Backpack";
     in_description := js "Left in library"; in_location := js "Library 2F";
     in_contactInfo := js "a@b.com"; in_image := None |}.

Definition backpack_retitled : LostFoundItemInput :=
  {| in_type := lost; in_title := js "Blue backpack (Nike)";
     in_description := js "Left in library"; in_location := js "Library 2F";
     in_contactInfo := js "a@b.com"; in_image := None |}.

Definition backpack_as_found : LostFoundItemInput :=
  {| in_type := found; in_title := js "Blue Backpack";
     in_description := js "Left in library"; in_location := js "Library 2F";
     in_contactInfo := js "a@b.com"; in_image := None |}.

Definition backpack_with_photo : LostFoundItemInput :=
  {| in_type := lost; in_title := js "Blue Backpack";
     in_description := js "Left in library"; in_location := js "Library 2F";
     in_contactInfo := js "a@b.com"; in_image := Some photo |}.

Definition at_ (clock : string) : App.Env :=
  {| App.request := {| config := configured; now := js clock;
                       fresh_id := js "item-1"; rejection := None |};
     App.uploadImage := fun _ _ => Return hosted;
     App.Date_now := js "1704096000000";
     App.confirm := true |}.

Definition table_of (m : outcome Table) : Table :=
  match m with Return t => t | Throw _ => [] end.

(** The backpack is posted with a photo ... *)
Definition posted : Table :=
  table_of (App.handleSubmitForm (at_ "2024-01-01T09:00:00.000Z") None
              backpack_with_photo []).

(** ... what the view holds of it after the refresh ... *)
Definition posted_item : option LostFoundItem :=
  option_map rowToItem (stored (js "item-1") posted).

Definition posted_editing : LostFoundItem :=
  match posted_item with Some it => it | None => keys end.

(** ... it is marked claimed ... *)
Definition marked : Table :=
  App.handleStatusChange (at_ "2024-01-01T10:00:00.000Z") (js "item-1") claimed
    posted.

Definition marked_item : option LostFoundItem :=
  option_map rowToItem (stored (js "item-1") marked).

(** ... and the claimed item is edited: only its title changes. *)
Definition retitled : Table :=
  match marked_item with
  | Some editing =>
      table_of (App.handleSubmitForm (at_ "2024-01-01T11:00:00.000Z")
                  (Some editing) backpack_retitled marked)
  | None => marked
  end.

(** The posted item is edited and the other type is selected in the form. *)
Definition retyped : Table :=
  match posted_item with
  | Some editing =>
      table_of (App.handleSubmitForm (at_ "2024-01-01T11:00:00.000Z")
                  (Some editing) backpack_as_found posted)
  | None => posted
  end.

(** The push path with a change event handled while the initial read is
    outstanding. *)
Definition racing : Subscription.State :=
  Subscription.fetch_then_callback Subscription.change
    (Subscription.subscribeToLostFoundItems configured).

Definition blob : jsstring := js "blob:http://localhost:5173/6f1c".

Definition accepted : LostFoundItemInput -> outcome unit := fun _ => Return tt.

End Scenario.

(** ** services/storage.ts: the upload *)

Module Upload.

Import ImageOptimizer.

Record CloudinaryConfig : Type := mkCloudinary {
  CLOUDINARY_CLOUD_NAME : jsstring;
  CLOUDINARY_UPLOAD_PRESET : jsstring
}.

(** The four parts appended to the [FormData]. *)
Record FormData : Type := mkFormData {
  fd_file : File;
  fd_upload_preset : jsstring;
  fd_folder : jsstring;
  fd_public_id : jsstring
}.

(** The call [fetch(uploadUrl, { method: 'POST', body: formData })]. *)
Record Request : Type := mkUploadRequest {
  req_url : jsstring;
  req_method : jsstring;
  req_body : FormData
}.

(** What the code reads of the response: [ok], [await response.text()],
    and [(await response.json()).secure_url]. *)
Record Response : Type := mkResponse {
  ok : bool;
  text : outcome jsstring;
  secure_url : outcome (option jsstring)
}.

Definition msg_config : jsstring :=
  js "Cloudinary configuration missing. Please set VITE_CLOUDINARY_CLOUD_NAME and VITE_CLOUDINARY_UPLOAD_PRESET in your .env file".
Definition msg_upload_failed : jsstring :=
  js "Failed to upload image to Cloudinary".
Definition msg_no_url : jsstring :=
  js "Failed to get image URL from Cloudinary".

(** [a || b] for an optional string [a]. *)
Definition or_string (a : option jsstring) (b : jsstring) : jsstring :=
  match a with
  | Some s => if truthy s then s else b
  | None => b
  end.

(** What [errorData.error?.message] evaluates to, [errorData] being
    [JSON.parse(errorText)], or [{ raw: errorText }] when the text does not
    parse. *)
Inductive lookup : Type :=
| Raises (e : thrown)         (* the text parses to [null]: reading [.error] throws *)
| NoMessage                   (* [undefined], [null], [false] or [0] *)
| Text (message : jsstring)   (* a string *)
| NotText (shown : jsstring). (* another truthy value; [shown] is its [String()] *)

(** [new Error(message || errorText || 'Failed to upload image to
    Cloudinary')], when the lookup of [message] did not throw. *)
Definition upload_error (message : lookup) (errorText : jsstring)
  : outcome jsstring :=
  match message with
  | Raises e => Throw e
  | NoMessage => Throw (Error (or_string (Some errorText) msg_upload_failed))
  | Text m =>
      Throw (Error (or_string (Some m)
                      (or_string (Some errorText) msg_upload_failed)))
  | NotText shown => Throw (Error shown)
  end.

Section Upload.

Variable cloud : CloudinaryConfig.

(** [browser-image-compression], as for [optimizeImage]. *)
Variable imageCompression : File -> CompressionOptions -> outcome File.

(** The network. *)
Variable fetch : Request -> outcome Response.

(** [JSON.parse] on the error text and the lookup of [error?.message] in
    what it gives. *)
Variable error_message : jsstring -> lookup.

(** The reading of [Date.now()]. *)
Variable Date_now : jsstring.

(** What follows [await fetch(...)]. *)
Definition read_response (response : Response) : outcome jsstring :=
  if negb (ok response)
  then
    errorText <- text response ;;
    upload_error (error_message errorText) errorText
  else
    url <- secure_url response ;;
    match url with
    | Some u => if truthy u then Return u else Throw (Error msg_no_url)
    | None => Throw (Error msg_no_url)
    end.

Definition uploadUrl : jsstring :=
  js "https://api.cloudinary.com/v1_1/" ++ CLOUDINARY_CLOUD_NAME cloud
  ++ js "/image/upload".

Definition uploadImageToCloudinary (file : File) (itemId : jsstring)
  : outcome jsstring :=
  try_catch
    (if falsy (CLOUDINARY_CLOUD_NAME cloud)
        || falsy (CLOUDINARY_UPLOAD_PRESET cloud)
     then Throw (Error msg_config)
     else
       optimizedFile <- optimizeImage imageCompression file noOptions ;;
       let formData :=
         {| fd_file := optimizedFile;
            fd_upload_preset := CLOUDINARY_UPLOAD_PRESET cloud;
            fd_folder := js "lost-found-board";
            fd_public_id := itemId ++ js "_" ++ Date_now |} in
       response <- fetch {| req_url := uploadUrl;
                            req_method := js "POST";
                            req_body := formData |} ;;
       read_response response)
    Supabase.rethrow.

Definition uploadImage (file : File) (itemId : jsstring) : outcome jsstring :=
  uploadImageToCloudinary file itemId.

End Upload.

End Upload.

(** ** App.tsx: the state of the component *)

Module Controller.

Import Supabase.

Record State : Type := mkController {
  items : list LostFoundItem;
  loading : bool;
  showForm : bool;
  editingItem : option LostFoundItem;
  isSubmitting : bool
}.

(** The state of the first render. *)
Definition mounted : State :=
  {| items := []; loading := true; showForm := false; editingItem := None;
     isSubmitting := false |}.

(** [refreshItems]; [r] answers the read. *)
Definition refreshItems (c : Config) (r : response (list Row)) (st : State)
  : State :=
  {| items := match getLostFoundItems c r with
              | Return updatedItems => updatedItems
              | Throw _ => items st
              end;
     loading := false;
     showForm := showForm st; editingItem := editingItem st;
     isSubmitting := isSubmitting st |}.

(** The callback handed to [subscribeToLostFoundItems]. *)
Definition deliver (updatedItems : list LostFoundItem) (st : State) : State :=
  {| items := updatedItems; loading := false;
     showForm := showForm st; editingItem := editingItem st;
     isSubmitting := isSubmitting st |}.

Definition handleAddItem (st : State) : State :=
  {| items := items st; loading := loading st;
     showForm := true; editingItem := None;
     isSubmitting := isSubmitting st |}.

Definition handleEditItem (item : LostFoundItem) (st : State) : State :=
  {| items := items st; loading := loading st;
     showForm := true; editingItem := Some item;
     isSubmitting := isSubmitting st |}.

Definition handleCloseForm (st : State) : State :=
  if negb (isSubmitting st)
  then {| items := items st; loading := loading st;
          showForm := false; editingItem := None;
          isSubmitting := isSubmitting st |}
  else st.

Definition set_submitting (b : bool) (st : State) : State :=
  {| items := items st; loading := loading st;
     showForm := showForm st; editingItem := editingItem st;
     isSubmitting := b |}.

Definition close_form (st : State) : State :=
  {| items := items st; loading := loading st;
     showForm := false; editingItem := None;
     isSubmitting := isSubmitting st |}.

(** [handleSubmitForm] with the state of the component: the writes are
    those of [App.handleSubmitForm] on the item being edited; [r] answers
    the refresh that follows a success. *)
Definition handleSubmitForm (env : App.Env) (r : response (list Row))
    (data : LostFoundItemInput) (t : Table) (st : State)
  : outcome unit * Table * State :=
  match App.handleSubmitForm env (editingItem st) data t with
  | Return t' =>
      (Return tt, t',
       set_submitting false
         (close_form
            (refreshItems (config (App.request env)) r
               (set_submitting true st))))
  | Throw error =>
      (Throw error, t, set_submitting false (set_submitting true st))
  end.

(** [lostCount] and [foundCount] *)
Definition lostCount (l : list LostFoundItem) : nat :=
  List.length
    (filter (fun i => ItemType_eqb (type i) lost && Status_eqb (status i) active) l).

Definition foundCount (l : list LostFoundItem) : nat :=
  List.length
    (filter (fun i => ItemType_eqb (type i) found && Status_eqb (status i) active) l).

End Controller.

(** ** components/ItemCard.tsx *)

Module ItemCard.

Definition isLost (item : LostFoundItem) : bool := ItemType_eqb (type item) lost.

Definition isActive (item : LostFoundItem) : bool :=
  Status_eqb (status item) active.

(** The calls the buttons of a card make; every handler prop is given. *)
Inductive click : Type :=
| onStatusChange (i : jsstring) (st : Status)
| onEdit (item : LostFoundItem)
| onDelete (i : jsstring).

Definition buttons (item : LostFoundItem) : list click :=
  (if isActive item then [onStatusChange (id item) claimed] else [])
  ++ [onEdit item; onDelete (id item)].

End ItemCard.

(** ** More concrete inputs *)

Module Cases.

Import Supabase Scenario.

Definition cloud : Upload.CloudinaryConfig :=
  {| Upload.CLOUDINARY_CLOUD_NAME := js "demo";
     Upload.CLOUDINARY_UPLOAD_PRESET := js "lost-found-board" |}.

Definition no_cloud : Upload.CloudinaryConfig :=
  {| Upload.CLOUDINARY_CLOUD_NAME := [];
     Upload.CLOUDINARY_UPLOAD_PRESET := js "lost-found-board" |}.

Definition hosting (q : Upload.Request) : outcome Upload.Response :=
  Return {| Upload.ok := true; Upload.text := Return [];
            Upload.secure_url := Return (Some hosted) |}.

Definition refusing (q : Upload.Request) : outcome Upload.Response :=
  Return {| Upload.ok := false;
            Upload.text := Return (js "Upload preset not found");
            Upload.secure_url := Throw (NotAnError 0) |}.

Definition no_json (s : jsstring) : Upload.lookup := Upload.NoMessage.

(** The answer [null] with a status that is not ok. *)
Definition refusing_null (q : Upload.Request) : outcome Upload.Response :=
  Return {| Upload.ok := false; Upload.text := Return (js "null");
            Upload.secure_url := Throw (NotAnError 0) |}.

Definition type_error : thrown :=
  Error (js "Cannot read properties of null (reading 'error')").

(** A parser that knows the text [null]. *)
Definition parses_null (s : jsstring) : Upload.lookup :=
  if JS.eqb s (js "null") then Upload.Raises type_error else Upload.NoMessage.

Definition pdf : File :=
  {| file_type := js "application/pdf"; size := 1024; content := 2 |}.

Definition huge : File :=
  {| file_type := js "image/png"; size := 11 * ImageOptimizer.MB; content := 3 |}.

(** A compressor that throws something that is not an [Error]. *)
Definition crashing (f : File) (o : ImageOptimizer.CompressionOptions)
  : outcome File := Throw (NotAnError 7).

(** A compressor that answers the first pass with 4 MB and throws
    something that is not an [Error] in the second. *)
Definition stubborn (f : File) (o : ImageOptimizer.CompressionOptions)
  : outcome File :=
  match ImageOptimizer.c_maxWidthOrHeight o with
  | Some w =>
      if w =? 1600 then Throw (NotAnError 7)
      else Return {| file_type := ImageOptimizer.c_fileType o;
                     size := 4 * ImageOptimizer.MB; content := content f |}
  | None =>
      Return {| file_type := ImageOptimizer.c_fileType o;
                size := 4 * ImageOptimizer.MB; content := content f |}
  end.

Definition morning : App.Env := at_ "2024-01-01T09:00:00.000Z".

Definition noon : Request :=
  {| config := configured; now := js "2024-01-01T12:00:00.000Z";
     fresh_id := js "item-2"; rejection := None |}.

(** A request the service rejects. *)
Definition denied : thrown :=
  Error (js "new row violates row-level security policy").

Definition rejected : Request :=
  {| config := configured; now := js "2024-01-01T12:00:00.000Z";
     fresh_id := js "item-2"; rejection := Some denied |}.

Definition refused : App.Env :=
  {| App.request := rejected; App.uploadImage := fun _ _ => Return hosted;
     App.Date_now := js "1704096000000"; App.confirm := true |}.

(** A read that does not give the rows: the transport failed, or the
    answer carries an error. *)
Definition fails {A : Type} (r : response A) : bool :=
  match r with
  | Failed _ => true
  | Answer _ (Some _) => true
  | Answer _ None => false
  end.

Definition claimed_keys : LostFoundItem :=
  {| id := js "item-9"; type := found; title := js "Keys";
     description := js "Keyring"; location := js "Gym";
     contactInfo := js "c@d.org"; imageUrl := None;
     createdAt := new_Date (js "2024-01-01T08:00:00.000Z");
     updatedAt := new_Date (js "2024-01-02T08:00:00.000Z");
     status := claimed |}.

End Cases.

(** ** services/supabase.ts: the body of the module *)

Module ModuleBody.

Import Supabase.

Section Body.

(** [createClient] of the Supabase library, which is not part of the
    code: given the URL and the key it answers with a client or throws. *)
Variable createClient : jsstring -> jsstring -> outcome unit.

(** Importing the module runs its body: the two constants are read, a
    warning is logged when one of them is empty, and
    [export const supabase = createClient(SUPABASE_URL, SUPABASE_ANON_KEY)]
    runs.  When that throws the module is not loaded, and none of its
    functions can be called. *)
Definition import_module (c : Config) : outcome Config :=
  supabase <- createClient (SUPABASE_URL c) (SUPABASE_ANON_KEY c) ;;
  Return c.

(** The reads as the program makes them: of the loaded module. *)
Definition getLostFoundItems (c : Config) (r : response (list Row))
  : outcome (list LostFoundItem) :=
  loaded <- import_module c ;; Supabase.getLostFoundItems loaded r.

Definition getLostFoundItemsByType (c : Config) (ty : ItemType)
    (r : ItemType -> response (list Row)) : outcome (list LostFoundItem) :=
  loaded <- import_module c ;; Supabase.getLostFoundItemsByType loaded ty r.

Definition getLostFoundItem (c : Config) (i : jsstring)
    (r : jsstring -> response Row) : outcome (option LostFoundItem) :=
  loaded <- import_module c ;; Supabase.getLostFoundItem loaded i r.

End Body.

(** What [createClient] does before anything else: it refuses an empty URL
    and an empty key. *)
Definition validating (supabaseUrl supabaseKey : jsstring) : outcome unit :=
  if falsy supabaseUrl then Throw (Error (js "supabaseUrl is required."))
  else if falsy supabaseKey then Throw (Error (js "supabaseKey is required."))
  else Return tt.

End ModuleBody.

(** ** What [callback] is handed *)

Module Deliveries.

Import Supabase Subscription.

(** The list [getLostFoundItems] makes of an answer of the service. *)
Definition handed (c : Config) (r : response (list Row)) : list LostFoundItem :=
  match getLostFoundItems c r with
  | Return items => items
  | Throw _ => []
  end.

(** The answers the service gave along a run of events, each with what
    started the read it answers, oldest first. *)
Fixpoint answers (trace : list event) (st : State)
  : list (origin * response (list Row)) :=
  match trace with
  | [] => []
  | e :: rest =>
      match step e st with
      | Some st' =>
          match e with
          | answered k r =>
              match nth_error (inflight st) k with
              | Some o => [(o, r)]
              | None => []
              end
          | _ => []
          end ++ answers rest st'
      | None => []
      end
  end.

(** The call of [callback] an answer leads to. *)
Definition as_delivered (c : Config) (a : origin * response (list Row))
  : delivery :=
  (fst a, handed c (snd a)).

End Deliveries.

(** ** What the form and the subscription keep *)

Module Invariants.

(** The file the form holds was accepted and has a preview. *)
Definition holds_checked_file (st : ItemForm.State) : Prop :=
  forall f, ItemForm.imageFile st = Some f ->
    startsWith (file_type f) (js "image/") = true
    /\ size f <= 10 * (1024 * 1024)
    /\ exists u, ItemForm.imagePreview st = Some u
                 /\ In u (ItemForm.previews st).

(** The browser never hands out the empty string as an object URL. *)
Definition hands_out_url (a : ItemForm.action) : Prop :=
  match a with
  | ItemForm.choose _ url => truthy url = true
  | _ => True
  end.

(** On a form whose item has no image, a preview that is still alive is
    the one on display. *)
Definition releases_previews (st : ItemForm.State) : Prop :=
  ItemForm.defined (ItemForm.item_imageUrl (ItemForm.item st)) = false
  /\ (forall s, ItemForm.imagePreview st = Some s -> truthy s = true)
  /\ (forall u,
        In u (ItemForm.previews st) ->
        existsb (JS.eqb u) (ItemForm.live st) = true ->
        ItemForm.displayed u st = true).



End Invariants.

(** * Properties *)

(** ** Strings and lists *)

Lemma eqb_refl : forall s, JS.eqb s s = true.
Proof.
  induction s as [|a s IH]; cbn; [reflexivity|].
  now rewrite N.eqb_refl, IH.
Qed.

Lemma eqb_eq : forall s t, JS.eqb s t = true <-> s = t.
Proof.
  induction s as [|a s IH]; destruct t as [|b t]; cbn; split; intro H;
    try reflexivity; try discriminate.
  - apply andb_true_iff in H as [Hab Hst].
    apply N.eqb_eq in Hab. apply IH in Hst. now subst.
  - injection H as -> ->. now rewrite N.eqb_refl, eqb_refl.
Qed.

Lemma filter_both {A : Type} (p q : A -> bool) (l : list A) :
  filter p (filter q l) = filter (fun x => q x && p x) l.
Proof.
  induction l as [|x l IH]; cbn; [reflexivity|].
  destruct (q x) eqn:Hq; cbn; [destruct (p x)|]; now rewrite IH.
Qed.

Lemma filter_all {A : Type} (l : list A) : filter (fun _ => true) l = l.
Proof.
  induction l as [|x l IH]; cbn; [reflexivity|]. now rewrite IH.
Qed.

(** ** The row mapping *)

Module RowMapping.

Import Supabase Scenario.

(** C10. For every wire row, [rowToItem] yields status [active] when the
    row's status column is null or absent, yields no [imageUrl] when the
    row's [image_url] column is null or the empty string, and copies the
    remaining columns one to one ([contact_info] to [contactInfo], the two
    time stamps made into dates). *)
Theorem rowToItem_defaults :
  forall row : Row,
    (r_status row = Null \/ r_status row = Absent ->
       status (rowToItem row) = active)
    /\ (image_url row = Null \/ image_url row = Value [] ->
       imageUrl (rowToItem row) = None)
    /\ id (rowToItem row) = r_id row
    /\ type (rowToItem row) = r_type row
    /\ title (rowToItem row) = r_title row
    /\ description (rowToItem row) = r_description row
    /\ location (rowToItem row) = r_location row
    /\ contactInfo (rowToItem row) = contact_info row
    /\ createdAt (rowToItem row) = new_Date (created_at row)
    /\ updatedAt (rowToItem row) = new_Date (updated_at row).
Proof.
  intro row. cbn [rowToItem id type title description location contactInfo
                  imageUrl status createdAt updatedAt].
  split; [|split].
  - intros [-> | ->]; reflexivity.
  - intros [-> | ->]; reflexivity.
  - repeat split.
Qed.

Lemma rowToItem_defaults_witness :
  status (rowToItem bare_row) = active
  /\ imageUrl (rowToItem bare_row) = None
  /\ contactInfo (rowToItem bare_row) = js "c@d.org".
Proof.
  destruct (rowToItem_defaults bare_row)
    as (Hstatus & Himage & _ & _ & _ & _ & _ & Hcontact & _).
  split; [|split].
  - apply Hstatus. left. reflexivity.
  - apply Himage. right. reflexivity.
  - exact Hcontact.
Defined.

End RowMapping.

(** ** The image optimizer *)

Module OptimizerProperties.

Import ImageOptimizer Scenario.

Lemma above_false : forall a b : N, a <= b -> (b <? a) = false.
Proof. intros a b H. apply N.ltb_ge. exact H. Qed.

(** C4. For every file whose declared content type is an image and whose
    size is at most 10 MB, [optimizeImage] returns a file of at most
    3 * 1024 * 1024 bytes or throws an [Error]; it never returns a file
    above 3 MB. *)
Theorem optimizeImage_at_most_3MB_or_error :
  forall (imageCompression : File -> CompressionOptions -> outcome File)
         (file : File) (options : ImageOptimizationOptions),
    startsWith (file_type file) (js "image/") = true ->
    size file <= 10 * (1024 * 1024) ->
    match optimizeImage imageCompression file options with
    | Return out => size out <= 3 * (1024 * 1024)
    | Throw e => instanceofError e = true
    end.
Proof.
  intros compress file options Himage Hsize.
  unfold optimizeImage. rewrite Himage.
  change (10 * MB) with (10 * (1024 * 1024)).
  rewrite (above_false _ _ Hsize). cbn [negb throw_if].
  destruct (compress file _) as [compressedFile | e]; cbn [bind try_catch].
  - destruct (3 * MB <? size compressedFile) eqn:Hfirst.
    + destruct (compress file _) as [moreCompressed | e]; cbn [bind try_catch].
      * destruct (3 * MB <? size moreCompressed) eqn:Hsecond;
          cbn [throw_if try_catch instanceofError].
        -- reflexivity.
        -- apply N.ltb_ge in Hsecond. exact Hsecond.
      * destruct e; reflexivity.
    + cbn [try_catch]. apply N.ltb_ge in Hfirst. exact Hfirst.
  - destruct e; reflexivity.
Qed.

Lemma optimizeImage_at_most_3MB_or_error_witness :
  match optimizeImage quarter photo noOptions with
  | Return out => size out <= 3 * (1024 * 1024)
  | Throw e => instanceofError e = true
  end.
Proof.
  apply (optimizeImage_at_most_3MB_or_error quarter photo noOptions).
  - reflexivity.
  - vm_compute. discriminate.
Defined.

End OptimizerProperties.

(** ** The reads *)

Module ReadProperties.

Import Supabase Scenario Cases.

Lemma getLostFoundItems_returns :
  forall c r, exists items, getLostFoundItems c r = Return items.
Proof.
  intros c r. unfold getLostFoundItems, read_body.
  destruct (not_configured c); [now eexists|].
  destruct r as [e | data [err|]]; cbn; now eexists.
Qed.

(** When [createClient] throws, the module is not loaded and each read
    of the program ends in that exception. *)
Lemma reads_need_the_client :
  forall createClient c e ty i r rt ri,
    createClient (SUPABASE_URL c) (SUPABASE_ANON_KEY c) = Throw e ->
    ModuleBody.getLostFoundItems createClient c r = Throw e
    /\ ModuleBody.getLostFoundItemsByType createClient c ty rt = Throw e
    /\ ModuleBody.getLostFoundItem createClient c i ri = Throw e.
Proof.
  intros createClient c e ty i r rt ri H.
  unfold ModuleBody.getLostFoundItems, ModuleBody.getLostFoundItemsByType,
    ModuleBody.getLostFoundItem, ModuleBody.import_module.
  rewrite H. repeat split.
Qed.

(** C7. Evaluated with no configuration (both settings empty): the guard
    inside [getLostFoundItems] would return the empty list, but importing
    the module already throws in [createClient], so each of the three
    reads of the program ends in "supabaseUrl is required." instead of an
    empty result. *)
Theorem reads_without_configuration_throw :
  not_configured unconfigured = true
  /\ getLostFoundItems unconfigured (Answer (Some [bare_row]) None) = Return []
  /\ ModuleBody.import_module ModuleBody.validating unconfigured
     = Throw (Error (js "supabaseUrl is required."))
  /\ ModuleBody.getLostFoundItems ModuleBody.validating unconfigured
       (Answer (Some [bare_row]) None)
     = Throw (Error (js "supabaseUrl is required."))
  /\ ModuleBody.getLostFoundItemsByType ModuleBody.validating unconfigured
       found (fun _ => Answer (Some [bare_row]) None)
     = Throw (Error (js "supabaseUrl is required."))
  /\ ModuleBody.getLostFoundItem ModuleBody.validating unconfigured
       (js "item-0") (fun _ => Answer (Some bare_row) None)
     = Throw (Error (js "supabaseUrl is required.")).
Proof.
  repeat split.
Qed.

End ReadProperties.

(** ** The derived view *)

Module ViewProperties.

Import App Scenario.

Section Stages.

Variable toLowerCase : jsstring -> jsstring.

Lemma byType_filter (f : Filter) (l : list LostFoundItem) :
  byType f l = filter (spec_kind f) l.
Proof.
  unfold byType. destruct f as [|kind]; cbn.
  - symmetry. apply filter_all.
  - reflexivity.
Qed.

Lemma byStatus_filter (f : Filter) (l : list LostFoundItem) :
  byStatus f l = filter (spec_visible f) l.
Proof.
  unfold byStatus. apply filter_ext. intro item.
  destruct f as [|kind]; cbn.
  - apply orb_true_r.
  - apply orb_false_r.
Qed.

Lemma bySearch_filter (q : jsstring) (l : list LostFoundItem) :
  bySearch toLowerCase q l = filter (blank_text toLowerCase q) l.
Proof.
  unfold bySearch, blank_text, truthy.
  destruct (falsy (trim q)); cbn.
  - symmetry. apply filter_all.
  - reflexivity.
Qed.

End Stages.

(** C5, amended.  For every item list, kind filter and search query the
    derived view is: the items matching the kind filter (['all'] passes
    every kind), of these only the active ones unless the filter is
    ['all'], of these the ones where the query is a case-insensitive
    substring of title, description or location; a query that is empty
    once trimmed passes everything. *)
Theorem filteredItems_is_blank_view :
  forall (toLowerCase : jsstring -> jsstring)
         (items : list LostFoundItem) (f : Filter) (q : jsstring),
    filteredItems toLowerCase items f q = blank_view toLowerCase items f q.
Proof.
  intros lower items f q. unfold filteredItems, blank_view.
  now rewrite bySearch_filter, byStatus_filter, byType_filter.
Qed.

(** C5 as stated fails: a query of one space keeps an item none of whose
    fields contains a space, while the stated definition drops it. *)
Lemma blank_query_differs_from_spec_view :
  filteredItems asciiToLowerCase [keys] all (js " ") = [keys]
  /\ spec_view asciiToLowerCase [keys] all (js " ") = []
  /\ filteredItems asciiToLowerCase [keys] all (js " ")
     <> spec_view asciiToLowerCase [keys] all (js " ").
Proof.
  split; [|split].
  - vm_compute. reflexivity.
  - vm_compute. reflexivity.
  - vm_compute. discriminate.
Qed.

(** C6. The kind filter, the status rule and the text search commute: in
    each of the six orders they give the derived view. *)
Theorem filter_stages_commute :
  forall (toLowerCase : jsstring -> jsstring)
         (items : list LostFoundItem) (f : Filter) (q : jsstring),
    let kind := byType f in
    let visible := byStatus f in
    let search := bySearch toLowerCase q in
    let view := filteredItems toLowerCase items f q in
    search (visible (kind items)) = view
    /\ search (kind (visible items)) = view
    /\ visible (search (kind items)) = view
    /\ visible (kind (search items)) = view
    /\ kind (search (visible items)) = view
    /\ kind (visible (search items)) = view.
Proof.
  intros lower items f q kind visible search view.
  subst kind visible search view. unfold filteredItems.
  rewrite !bySearch_filter, !byStatus_filter, !byType_filter.
  set (k := spec_kind f). set (v := spec_visible f).
  set (t := blank_text lower q).
  repeat split; rewrite !filter_both; apply filter_ext; intro item;
    destruct (k item), (v item), (t item); reflexivity.
Qed.

End ViewProperties.

(** ** The write flows *)

Module WriteProperties.

Import Supabase App Scenario.

Lemma stored_id : forall i t r, stored i t = Some r -> r_id r = i.
Proof.
  intros i t r H. apply find_some in H as [_ H]. now apply eqb_eq.
Qed.

(** An update rewrites the rows of its id and keeps every id. *)
Lemma stored_table_update :
  forall i j p t,
    stored i (table_update j p t)
    = option_map (fun r => if JS.eqb (r_id r) j then patch p r else r)
        (stored i t).
Proof.
  intros i j p t. unfold stored, table_update.
  induction t as [|r t IH]; cbn; [reflexivity|].
  assert (Hid : r_id (if JS.eqb (r_id r) j then patch p r else r) = r_id r)
    by (destruct (JS.eqb (r_id r) j); reflexivity).
  rewrite Hid. destruct (JS.eqb (r_id r) i); [reflexivity | exact IH].
Qed.

(** What a successful edit submission writes. *)
Lemma edit_submission_writes :
  forall env editing data t t',
    handleSubmitForm env (Some editing) data t = Return t' ->
    exists updates,
      p_type updates = Some (in_type data)
      /\ p_status updates = None
      /\ t' = table_update (id editing)
                (stamp (now (request env)) (itemToRow updates)) t.
Proof.
  intros env editing data t t' H.
  unfold handleSubmitForm in H.
  destruct (in_image data) as [image|].
  - destruct (deleteImage_if (imageUrl editing)) as [[]|e]; cbn in H;
      [|discriminate H].
    destruct (uploadImage env image (id editing)) as [url|e]; cbn in H;
      [|discriminate H].
    unfold updateLostFoundItem in H.
    destruct (not_configured (config (request env))); cbn in H;
      [discriminate H|].
    destruct (rejection (request env)); cbn in H; [discriminate H|].
    injection H as <-. eexists. split; [|split]. 3: reflexivity.
    all: reflexivity.
  - cbn in H. unfold updateLostFoundItem in H.
    destruct (not_configured (config (request env))); cbn in H;
      [discriminate H|].
    destruct (rejection (request env)); cbn in H; [discriminate H|].
    injection H as <-. eexists. split; [|split]. 3: reflexivity.
    all: reflexivity.
Qed.

(** C1. Evaluated on the scenario: the backpack is posted (active), marked
    claimed, and then edited with only its title changed; the stored status
    is [active] again. *)
Theorem edit_of_claimed_item_restores_active :
  map r_status posted = [Value active]
  /\ map r_status marked = [Value claimed]
  /\ option_map status marked_item = Some claimed
  /\ map r_status retitled = [Value active].
Proof.
  repeat split; vm_compute; reflexivity.
Qed.

(** The same on every table: an edit submission that succeeds leaves the
    edited row active, whatever its status was. *)
Lemma edit_submission_sets_active :
  forall env editing data t t' r,
    handleSubmitForm env (Some editing) data t = Return t' ->
    stored (id editing) t = Some r ->
    option_map r_status (stored (id editing) t') = Some (Value active).
Proof.
  intros env editing data t t' r H Hr.
  apply edit_submission_writes in H as (updates & _ & Hst & ->).
  rewrite stored_table_update, Hr. cbn [option_map].
  rewrite (stored_id _ _ _ Hr), eqb_refl.
  cbn. now rewrite Hst.
Qed.

(** C2 as stated fails: the backpack is posted as lost, the edit form is
    submitted with the other type selected, and the stored type is found. *)
Lemma edit_submission_changes_type :
  option_map r_type (stored (js "item-1") posted) = Some lost
  /\ option_map r_type (stored (js "item-1") retyped) = Some found
  /\ option_map r_type (stored (js "item-1") retyped)
     <> option_map r_type (stored (js "item-1") posted).
Proof.
  split; [|split].
  - vm_compute. reflexivity.
  - vm_compute. reflexivity.
  - vm_compute. discriminate.
Qed.

(** C2, amended.  The type of an item is set at creation and every
    successful edit submission stores the type selected in the submitted
    form: after any run of successful edit submissions the stored type of
    item [i] is the type submitted by the last edit of [i], and the type it
    had before when none of them edited [i]. *)
Theorem edits_store_submitted_type :
  forall (subs : list (Env * LostFoundItem * LostFoundItemInput))
         (t t' : Table) (i : jsstring) (r : Row),
    stored i t = Some r ->
    edits subs t = Return t' ->
    exists r',
      stored i t' = Some r'
      /\ r_type r' = submitted_type i subs (r_type r).
Proof.
  induction subs as [|[[env editing] data] rest IH]; intros t t' i r Hr Hrun.
  - cbn in Hrun. injection Hrun as <-. exists r. split; [exact Hr | reflexivity].
  - cbn [edits] in Hrun.
    destruct (handleSubmitForm env (Some editing) data t) as [t1|e] eqn:Hstep;
      cbn [bind] in Hrun; [|discriminate Hrun].
    apply edit_submission_writes in Hstep as (updates & Hty & _ & ->).
    assert (Hr1 := stored_table_update i (id editing)
                     (stamp (now (request env)) (itemToRow updates)) t).
    rewrite Hr in Hr1. cbn [option_map] in Hr1.
    destruct (IH _ _ _ _ Hr1 Hrun) as (r' & Hr' & Htype).
    exists r'. split; [exact Hr'|].
    rewrite Htype. unfold submitted_type. cbn [fold_left].
    f_equal. rewrite (stored_id _ _ _ Hr).
    destruct (JS.eqb i (id editing)) eqn:Hij.
    + apply eqb_eq in Hij. rewrite <- Hij, eqb_refl. cbn. now rewrite Hty.
    + destruct (JS.eqb (id editing) i) eqn:Hji; [|reflexivity].
      apply eqb_eq in Hji. rewrite Hji, eqb_refl in Hij. discriminate Hij.
Qed.

Lemma edits_store_submitted_type_witness :
  exists r',
    stored (js "item-1") retyped = Some r' /\ r_type r' = found.
Proof.
  exact (edits_store_submitted_type
           [(at_ "2024-01-01T11:00:00.000Z", posted_editing, backpack_as_found)]
           posted retyped (js "item-1") (hd bare_row posted)
           eq_refl eq_refl).
Defined.

(** C3. Evaluated on the scenario: the posted backpack has an image; the
    status-change flow supplies only [status], and the stored [image_url]
    is [null] afterwards. *)
Theorem status_change_clears_image_url :
  map image_url posted = [Value hosted]
  /\ itemToRow {| p_type := None; p_title := None; p_description := None;
                  p_location := None; p_contactInfo := None;
                  p_imageUrl := None; p_status := Some claimed |}
     = {| w_type := None; w_title := None; w_description := None;
          w_location := None; w_contact_info := None;
          w_image_url := Null; w_status := Value claimed;
          w_updated_at := None |}
  /\ map image_url marked = [Null]
  /\ option_map imageUrl marked_item = Some None.
Proof.
  repeat split; vm_compute; reflexivity.
Qed.

(** The same on every table: a status change that succeeds leaves the row
    without its image. *)
Lemma status_change_nulls_image :
  forall env i st t r,
    returns (updateLostFoundItem (request env) i
               {| p_type := None; p_title := None; p_description := None;
                  p_location := None; p_contactInfo := None;
                  p_imageUrl := None; p_status := Some st |} t) = true ->
    stored i t = Some r ->
    option_map image_url (stored i (handleStatusChange env i st t)) = Some Null.
Proof.
  intros env i st t r Hok Hr. unfold handleStatusChange.
  unfold updateLostFoundItem in *.
  destruct (not_configured (config (request env)));
    cbn [bind try_catch rethrow returns] in *; [discriminate Hok|].
  destruct (rejection (request env));
    cbn [bind try_catch rethrow returns] in *; [discriminate Hok|].
  rewrite stored_table_update, Hr. cbn [option_map].
  now rewrite (stored_id _ _ _ Hr), eqb_refl.
Qed.

End WriteProperties.

(** ** The subscription *)

Module SubscriptionProperties.

Import Supabase Subscription Scenario.

Lemma hd_error_app {A : Type} (l : list A) (x y : A) :
  hd_error l = Some x -> hd_error (l ++ [y]) = Some x.
Proof. destruct l; cbn; intro H; [discriminate H | exact H]. Qed.

Lemma existsb_snoc {A : Type} (p : A -> bool) (l : list A) (x : A) :
  existsb p l = true -> existsb p (l ++ [x]) = true.
Proof. intro H. rewrite existsb_app, H. reflexivity. Qed.

Lemma remove_nth_keeps {A : Type} (x o : A) :
  forall (l : list A) (k : nat),
    In x l -> nth_error l k = Some o -> In x (remove_nth k l) \/ o = x.
Proof.
  unfold remove_nth.
  induction l as [|y l IH]; intros k Hin Hk; [destruct Hin|].
  destruct k as [|k]; cbn in *.
  - injection Hk as <-. destruct Hin as [-> | Hin]; [now right | now left].
  - destruct Hin as [-> | Hin]; [now left; left|].
    destruct (IH k Hin Hk) as [H | H]; [left; now right | now right].
Qed.

Lemma subscribe_invariant :
  forall c, invariant c (subscribeToLostFoundItems c).
Proof.
  intro c. unfold subscribeToLostFoundItems, fetch_then_callback.
  cbn [created cfg].
  destruct (not_configured c) eqn:Hc; constructor; cbn; try reflexivity.
  - now left.
  - intros _. split; [reflexivity | split]; [|now exists []].
    constructor; [reflexivity | constructor].
  - right. now left.
  - intro H. congruence.
Qed.

Lemma fetch_invariant :
  forall c o st, invariant c st -> invariant c (fetch_then_callback o st).
Proof.
  intros c o st [Hcfg Hreq Hpend Hpoll]. unfold fetch_then_callback.
  destruct (not_configured (cfg st)) eqn:Hc; constructor; cbn.
  - exact Hcfg.
  - now apply hd_error_app.
  - destruct Hpend as [H | H]; [left | now right].
    rewrite app_assoc. now apply existsb_snoc.
  - intro Hc'. destruct (Hpoll Hc') as (Hin & Hempty & rest & Hrest).
    split; [exact Hin | split].
    + rewrite app_assoc. apply Forall_app. split; [exact Hempty|].
      constructor; [reflexivity | constructor].
    + exists (rest ++ [(o, [])]). now rewrite app_assoc, Hrest.
  - exact Hcfg.
  - now apply hd_error_app.
  - destruct Hpend as [H | H]; [now left | right].
    apply in_or_app. now left.
  - intro H. rewrite <- Hcfg in H. congruence.
Qed.

Lemma step_invariant :
  forall c e st st', invariant c st -> step e st = Some st' -> invariant c st'.
Proof.
  intros c e st st' Hinv Hstep.
  destruct e as [| | k r | |]; cbn [step] in Hstep.
  - destruct (idle st && interval st); [|discriminate Hstep].
    injection Hstep as <-. now apply fetch_invariant.
  - destruct (idle st && channel st); [|discriminate Hstep].
    injection Hstep as <-. now apply fetch_invariant.
  - destruct (idle st); [|discriminate Hstep].
    unfold answer in Hstep.
    destruct (nth_error (inflight st) k) as [o|] eqn:Hk; [|discriminate Hstep].
    injection Hstep as <-.
    destruct Hinv as [Hcfg Hreq Hpend Hpoll].
    destruct (ReadProperties.getLostFoundItems_returns (cfg st) r)
      as [items Hitems].
    rewrite Hitems.
    constructor; cbn.
    + exact Hcfg.
    + exact Hreq.
    + destruct Hpend as [H | H].
      * left. rewrite app_assoc. now apply existsb_snoc.
      * destruct (remove_nth_keeps _ _ _ _ H Hk) as [H' | ->];
          [now right | left].
        rewrite !existsb_app. cbn. now rewrite !orb_true_r.
    + intro Hc. destruct (Hpoll Hc) as [Hin _].
      rewrite Hin in Hk. destruct k; discriminate Hk.
  - unfold run_job in Hstep.
    destruct (jobs st) as [|j rest] eqn:Hjobs; [discriminate Hstep|].
    injection Hstep as <-.
    destruct Hinv as [Hcfg Hreq Hpend Hpoll].
    rewrite Hjobs in *.
    constructor; cbn; rewrite <- ?app_assoc; cbn; assumption.
  - destruct (idle st); [|discriminate Hstep].
    injection Hstep as <-.
    destruct Hinv as [Hcfg Hreq Hpend Hpoll].
    unfold unsubscribe.
    destruct (not_configured (cfg st)); constructor; cbn; assumption.
Qed.

Lemma run_invariant :
  forall c trace st st',
    invariant c st -> run trace st = Some st' -> invariant c st'.
Proof.
  induction trace as [|e trace IH]; intros st st' Hinv Hrun; cbn in Hrun.
  - now injection Hrun as <-.
  - destruct (step e st) as [st1|] eqn:Hstep; [|discriminate Hrun].
    apply (IH st1); [|exact Hrun].
    now apply (step_invariant c e st).
Qed.

Lemma run_app :
  forall a b st,
    run (a ++ b) st
    = match run a st with Some st' => run b st' | None => None end.
Proof.
  induction a as [|e a IH]; intros b st; cbn; [reflexivity|].
  destruct (step e st); [apply IH | reflexivity].
Qed.

(** Running the queued reactions one after the other empties the queue. *)
Lemma run_jobs :
  forall queue c rq inf del i ch,
    run (repeat job (List.length queue)) (mkState c rq inf queue del i ch)
    = Some (mkState c rq inf [] (del ++ queue) i ch).
Proof.
  induction queue as [|j queue IH]; intros c rq inf del i ch; cbn.
  - now rewrite app_nil_r.
  - rewrite IH, <- app_assoc. reflexivity.
Qed.

Lemma index_of_nth :
  forall o l, In o l -> exists k, index_of o l = Some k /\ nth_error l k = Some o.
Proof.
  induction l as [|x l IH]; intro Hin; [destruct Hin|]. cbn.
  destruct (origin_eqb x o) eqn:Hx.
  - exists O. split; [reflexivity|]. destruct x, o; try discriminate Hx; reflexivity.
  - destruct Hin as [-> | Hin]; [destruct o; discriminate Hx|].
    destruct (IH Hin) as (k & -> & Hk). now exists (S k).
Qed.

Lemma step_cfg :
  forall e st st', step e st = Some st' -> cfg st' = cfg st.
Proof.
  intros e st st' Hstep. destruct e as [| | k r | |]; cbn [step] in Hstep.
  - destruct (idle st && interval st); [|discriminate Hstep].
    injection Hstep as <-. unfold fetch_then_callback.
    now destruct (not_configured (cfg st)).
  - destruct (idle st && channel st); [|discriminate Hstep].
    injection Hstep as <-. unfold fetch_then_callback.
    now destruct (not_configured (cfg st)).
  - destruct (idle st); [|discriminate Hstep]. unfold answer in Hstep.
    destruct (nth_error (inflight st) k); [|discriminate Hstep].
    now injection Hstep as <-.
  - unfold run_job in Hstep. destruct (jobs st); [discriminate Hstep|].
    now injection Hstep as <-.
  - destruct (idle st); [|discriminate Hstep]. injection Hstep as <-.
    unfold unsubscribe. now destruct (not_configured (cfg st)).
Qed.

(** On the push path one event adds to the calls made or queued exactly
    the call its answer leads to. *)
Lemma step_hands_the_answer :
  forall e st st',
    not_configured (cfg st) = false ->
    step e st = Some st' ->
    delivered st' ++ jobs st'
    = (delivered st ++ jobs st)
      ++ map (Deliveries.as_delivered (cfg st))
           match e with
           | answered k r =>
               match nth_error (inflight st) k with
               | Some o => [(o, r)]
               | None => []
               end
           | _ => []
           end.
Proof.
  intros e st st' Hc Hstep. destruct e as [| | k r | |]; cbn [step] in Hstep.
  - destruct (idle st && interval st); [|discriminate Hstep].
    injection Hstep as <-. unfold fetch_then_callback. rewrite Hc. cbn.
    now rewrite app_nil_r.
  - destruct (idle st && channel st); [|discriminate Hstep].
    injection Hstep as <-. unfold fetch_then_callback. rewrite Hc. cbn.
    now rewrite app_nil_r.
  - destruct (idle st); [|discriminate Hstep]. unfold answer in Hstep.
    destruct (nth_error (inflight st) k) as [o|]; [|discriminate Hstep].
    injection Hstep as <-. cbn.
    unfold Deliveries.as_delivered, Deliveries.handed. cbn [fst snd].
    destruct (ReadProperties.getLostFoundItems_returns (cfg st) r)
      as [items ->].
    now rewrite app_assoc.
  - unfold run_job in Hstep.
    destruct (jobs st) as [|j rest] eqn:Hjobs; [discriminate Hstep|].
    injection Hstep as <-. cbn. now rewrite <- app_assoc, app_nil_r.
  - destruct (idle st); [|discriminate Hstep]. injection Hstep as <-.
    unfold unsubscribe. rewrite Hc. cbn. now rewrite app_nil_r.
Qed.

Lemma run_hands_the_answers :
  forall trace st st',
    not_configured (cfg st) = false ->
    run trace st = Some st' ->
    delivered st' ++ jobs st'
    = (delivered st ++ jobs st)
      ++ map (Deliveries.as_delivered (cfg st)) (Deliveries.answers trace st).
Proof.
  induction trace as [|e trace IH]; intros st st' Hc Hrun; cbn in Hrun |- *.
  - injection Hrun as <-. now rewrite app_nil_r.
  - destruct (step e st) as [st1|] eqn:Hstep; [|discriminate Hrun].
    assert (Hc1 := step_cfg _ _ _ Hstep).
    rewrite (IH st1 st'); [|now rewrite Hc1 | exact Hrun].
    rewrite (step_hands_the_answer _ _ _ Hc Hstep), Hc1, map_app.
    now rewrite <- !app_assoc.
Qed.

(** The initial read reaches [callback] along [finish]; when it was still
    outstanding, with the list made of the answer [r]. *)
Lemma finish_hands_over :
  forall c r st,
    invariant c st ->
    exists st', run (finish r st) st = Some st'
                /\ initial_delivered st' = true
                /\ (existsb is_initial (delivered st ++ jobs st) = false ->
                    delivered st'
                    = delivered st ++ jobs st
                      ++ [(initial, Deliveries.handed c r)]).
Proof.
  intros c r [c0 rq inf queue del i ch] [Hcfg Hreq Hpend Hpoll].
  cbn in *. unfold finish. cbn [jobs delivered inflight].
  rewrite run_app, run_jobs.
  destruct (existsb is_initial (del ++ queue)) eqn:Hdone.
  - eexists. split; [reflexivity|]. split; [exact Hdone|].
    intro H. discriminate H.
  - destruct Hpend as [H | H]; [discriminate H|].
    destruct (index_of_nth _ _ H) as (k & -> & Hk).
    cbn [run step idle jobs]. unfold answer. cbn [inflight cfg jobs].
    rewrite Hk. unfold Deliveries.handed. rewrite <- Hcfg.
    destruct (ReadProperties.getLostFoundItems_returns c0 r) as [items Hitems].
    rewrite Hitems. cbn.
    eexists. split; [reflexivity|]. split.
    + unfold initial_delivered. cbn.
      rewrite !existsb_app. cbn. now rewrite !orb_true_r.
    + intros _. now rewrite <- app_assoc.
Qed.

(** C8 as stated fails on the push path: a change event arrives while the
    initial read is outstanding, the read it starts is answered first, and
    the first call of [callback] is the change-driven one. *)
Lemma change_delivery_can_precede_initial :
  let trace := [changed; answered 1 (Answer (Some []) None); job] in
  option_map delivered (run trace (subscribeToLostFoundItems configured))
    = Some [(change, [])]
  /\ option_map inflight (run trace (subscribeToLostFoundItems configured))
    = Some [initial]
  /\ option_map initial_first (run trace (subscribeToLostFoundItems configured))
    = Some false.
Proof.
  repeat split; vm_compute; reflexivity.
Qed.

(** C8, amended.  At every moment after [subscribe(callback)] on the
    push path: the read for the initial delivery was requested before
    every change-driven read; the calls of [callback] made or queued so
    far are, in the order of the answers, exactly the lists
    [getLostFoundItems] made of the service's answers to the reads (the
    rows mapped to items; the empty list for an empty table, an error or
    a failed transport); and the initial read reaches [callback] once the
    queued calls and its answer are handled, with no change event needed
    and, when it was still outstanding, with the list made of that
    answer. *)
Theorem subscribe_requests_initial_first :
  forall (c : Config) (trace : list event) (st : State),
    not_configured c = false ->
    run trace (subscribeToLostFoundItems c) = Some st ->
    hd_error (requested st) = Some initial
    /\ delivered st ++ jobs st
       = map (Deliveries.as_delivered c)
           (Deliveries.answers trace (subscribeToLostFoundItems c))
    /\ (forall r : response (list Row),
          exists st',
            run (finish r st) st = Some st'
            /\ initial_delivered st' = true
            /\ (existsb is_initial (delivered st ++ jobs st) = false ->
                delivered st'
                = delivered st ++ jobs st
                  ++ [(initial, Deliveries.handed c r)]))
    /\ (forall rows,
          Deliveries.handed c (Answer (Some rows) None) = map rowToItem rows)
    /\ (forall e, Deliveries.handed c (Failed e) = [])
    /\ (forall data error, Deliveries.handed c (Answer data (Some error)) = []).
Proof.
  intros c trace st Hc Hrun.
  assert (Hinv : invariant c st)
    by (apply (run_invariant c trace _ _ (subscribe_invariant c) Hrun)).
  split; [|split; [|split; [|split; [|split]]]].
  - apply (inv_first_request c st Hinv).
  - assert (Hcfg : cfg (subscribeToLostFoundItems c) = c).
    { unfold subscribeToLostFoundItems, fetch_then_callback.
      cbn [created cfg]. now rewrite Hc. }
    rewrite (run_hands_the_answers trace (subscribeToLostFoundItems c) st);
      [|now rewrite Hcfg | exact Hrun].
    rewrite Hcfg. unfold subscribeToLostFoundItems, fetch_then_callback.
    cbn [created cfg]. now rewrite Hc.
  - intro r. now apply finish_hands_over.
  - intro rows. unfold Deliveries.handed, getLostFoundItems, read_body.
    now rewrite Hc.
  - intro e. unfold Deliveries.handed, getLostFoundItems, read_body.
    now rewrite Hc.
  - intros data error. unfold Deliveries.handed, getLostFoundItems, read_body.
    now rewrite Hc.
Qed.

Lemma subscribe_requests_initial_first_witness :
  hd_error (requested racing) = Some initial
  /\ exists st',
      run (finish (Answer (Some [bare_row]) None) racing) racing = Some st'
      /\ delivered st' = [(initial, [keys])].
Proof.
  destruct (subscribe_requests_initial_first configured [changed] racing
              eq_refl eq_refl) as (Hfirst & _ & Hfinish & _).
  split; [exact Hfirst|].
  destruct (Hfinish (Answer (Some [bare_row]) None))
    as (st' & Hrun & _ & Hlist).
  exists st'. split; [exact Hrun | apply Hlist; reflexivity].
Defined.

End SubscriptionProperties.

(** ** The form's previews *)

Module FormProperties.

Import ImageOptimizer ItemForm Scenario.

(** On a form opened to post a new item every preview is released: the
    one removed, and the one still shown when the submission succeeds. *)
Lemma new_item_form_releases_previews :
  leaked (acts [choose photo blob; remove] (opened None [])) = []
  /\ live (acts [choose photo blob; remove] (opened None [])) = []
  /\ leaked (acts [input (set_title (js "Blue Backpack"));
                   input (set_description (js "Left in library"));
                   choose photo blob; submit accepted] (opened None [])) = []
  /\ live (acts [input (set_title (js "Blue Backpack"));
                 input (set_description (js "Left in library"));
                 choose photo blob; submit accepted] (opened None [])) = [].
Proof.
  repeat split; vm_compute; reflexivity.
Qed.

(** C9. Evaluated on the form opened to edit the posted backpack, which
    has an image: the user removes the image, chooses a new file (a
    preview is created), and either removes it again or submits with
    success.  Both times the preview is no longer displayed and was never
    revoked. *)
Theorem edit_form_leaks_preview :
  imageUrl posted_editing = Some hosted
  /\ (let st := acts [remove; choose photo blob; remove]
                  (opened (Some posted_editing) []) in
      previews st = [blob] /\ imagePreview st = None
      /\ live st = [blob] /\ leaked st = [blob])
  /\ (let st := acts [remove; choose photo blob; submit accepted]
                  (opened (Some posted_editing) []) in
      previews st = [blob] /\ closed st = true
      /\ live st = [blob] /\ leaked st = [blob]).
Proof.
  repeat split; vm_compute; reflexivity.
Qed.

End FormProperties.

(** * Further properties of the code *)

(** ** [optimizeImage] beyond the size bound *)

Module OptimizerCases.

Import ImageOptimizer Scenario Cases.

Lemma try_rethrow {A : Type} (m : outcome A) :
  try_catch m Supabase.rethrow = m.
Proof. destruct m; reflexivity. Qed.

(** X1. A file whose declared type is not an image is refused with
    "File must be an image", and an image above 10 MB with the too-large
    message, whatever the compressor would answer. *)
Theorem optimizeImage_refuses_before_compressing :
  forall (imageCompression : File -> CompressionOptions -> outcome File)
         (file : File) (options : ImageOptimizationOptions),
    (startsWith (file_type file) (js "image/") = false ->
     optimizeImage imageCompression file options = Throw (Error msg_not_image))
    /\ (startsWith (file_type file) (js "image/") = true ->
        10 * (1024 * 1024) < size file ->
        optimizeImage imageCompression file options
        = Throw (Error msg_too_large)).
Proof.
  intros compress file options. unfold optimizeImage. split.
  - intros ->. reflexivity.
  - intros -> Hbig. apply N.ltb_lt in Hbig.
    change (10 * MB) with (10 * (1024 * 1024)). rewrite Hbig. reflexivity.
Qed.

Lemma optimizeImage_refuses_before_compressing_witness :
  optimizeImage quarter pdf noOptions = Throw (Error msg_not_image)
  /\ optimizeImage quarter huge noOptions = Throw (Error msg_too_large).
Proof.
  split.
  - destruct (optimizeImage_refuses_before_compressing quarter pdf noOptions)
      as [Htype _].
    apply Htype. reflexivity.
  - destruct (optimizeImage_refuses_before_compressing quarter huge noOptions)
      as [_ Hsize].
    apply Hsize; reflexivity.
Defined.

(** X2. A file [optimizeImage] returns is what the compressor made of the
    original file: either the first pass was at most 3 MB and is returned,
    or it was above 3 MB and the result of a second pass on the original
    file with 2 and 1600 is returned.  The first pass is run with the
    caller's size, dimension and worker flag: for a key the caller left
    out the default (2.5, 1920, true), for a key the caller gave as
    [undefined] the value [undefined].  Either way the input was an image
    of at most 10 MB and the result is at most 3 MB. *)
Theorem optimizeImage_returns_a_pass :
  forall (imageCompression : File -> CompressionOptions -> outcome File)
         (file : File) (options : ImageOptimizationOptions) (out : File),
    optimizeImage imageCompression file options = Return out ->
    let worker :=
      match useWebWorker options with
      | Missing => Some true
      | Undefined => None
      | Given v => Some v
      end in
    let first :=
      {| c_maxSizeMB :=
           match maxSizeMB options with
           | Missing => Some (5 # 2)%Q
           | Undefined => None
           | Given v => Some v
           end;
         c_maxWidthOrHeight :=
           match maxWidthOrHeight options with
           | Missing => Some 1920
           | Undefined => None
           | Given v => Some v
           end;
         c_useWebWorker := worker;
         c_fileType := file_type file |} in
    let second :=
      {| c_maxSizeMB := Some (2 # 1)%Q;
         c_maxWidthOrHeight := Some 1600;
         c_useWebWorker := worker;
         c_fileType := file_type file |} in
    startsWith (file_type file) (js "image/") = true
    /\ size file <= 10 * (1024 * 1024)
    /\ size out <= 3 * (1024 * 1024)
    /\ (imageCompression file first = Return out
        \/ exists big,
             imageCompression file first = Return big
             /\ 3 * (1024 * 1024) < size big
             /\ imageCompression file second = Return out).
Proof.
  intros compress file options out H worker first second.
  unfold optimizeImage in H.
  destruct (startsWith (file_type file) (js "image/")); [|discriminate H].
  cbn [negb throw_if] in H.
  destruct (10 * MB <? size file) eqn:Hsize; [discriminate H|].
  cbn [throw_if] in H. apply N.ltb_ge in Hsize.
  assert (Hfirst :
            {| c_maxSizeMB := read (maxSizeMB (spread defaultOptions options));
               c_maxWidthOrHeight :=
                 read (maxWidthOrHeight (spread defaultOptions options));
               c_useWebWorker :=
                 read (useWebWorker (spread defaultOptions options));
               c_fileType := file_type file |} = first).
  { subst first worker. destruct options as [[| |a] [| |b] [| |c]]; reflexivity. }
  assert (Hsecond :
            {| c_maxSizeMB := Some (2 # 1)%Q;
               c_maxWidthOrHeight := Some 1600;
               c_useWebWorker :=
                 read (useWebWorker (spread defaultOptions options));
               c_fileType := file_type file |} = second).
  { subst second worker. destruct options as [[| |a] [| |b] [| |c]]; reflexivity. }
  rewrite Hfirst, Hsecond in H. clear Hfirst Hsecond.
  destruct (compress file first) as [c1|e1] eqn:H1; cbn [bind] in H.
  - destruct (3 * MB <? size c1) eqn:Hc1.
    + destruct (compress file second) as [c2|e2] eqn:H2; cbn [bind] in H.
      * destruct (3 * MB <? size c2) eqn:Hc2; cbn [throw_if try_catch] in H;
          [discriminate H|].
        injection H as <-. apply N.ltb_lt in Hc1. apply N.ltb_ge in Hc2.
        repeat split; try assumption. right. exists c1. now repeat split.
      * cbn in H. destruct (instanceofError e2); discriminate H.
    + cbn [try_catch] in H. injection H as <-. apply N.ltb_ge in Hc1.
      repeat split; try assumption. now left.
  - cbn in H. destruct (instanceofError e1); discriminate H.
Qed.

Lemma optimizeImage_returns_a_pass_witness :
  startsWith (file_type photo) (js "image/") = true
  /\ size photo <= 10 * (1024 * 1024)
  /\ size {| file_type := js "image/jpeg"; size := 2 * MB; content := 1 |}
     <= 3 * (1024 * 1024)
  /\ (quarter photo
        {| c_maxSizeMB := None; c_maxWidthOrHeight := Some 1920;
           c_useWebWorker := Some false; c_fileType := js "image/jpeg" |}
      = Return {| file_type := js "image/jpeg"; size := 2 * MB; content := 1 |}
      \/ exists big,
           quarter photo
             {| c_maxSizeMB := None; c_maxWidthOrHeight := Some 1920;
                c_useWebWorker := Some false; c_fileType := js "image/jpeg" |}
           = Return big
           /\ 3 * (1024 * 1024) < size big
           /\ quarter photo
                {| c_maxSizeMB := Some (2 # 1)%Q; c_maxWidthOrHeight := Some 1600;
                   c_useWebWorker := Some false; c_fileType := js "image/jpeg" |}
              = Return {| file_type := js "image/jpeg"; size := 2 * MB;
                          content := 1 |}).
Proof.
  exact (optimizeImage_returns_a_pass quarter photo
           {| maxSizeMB := Undefined; maxWidthOrHeight := Missing;
              useWebWorker := Given false |}
           {| file_type := js "image/jpeg"; size := 2 * MB; content := 1 |}
           eq_refl).
Defined.

(** X3. When the compressor throws on an accepted file, in the first
    pass or in the second, an [Error] is passed on as it is and anything
    else is replaced by the error "Failed to optimize image"; so
    [optimizeImage] only ever throws [Error]s. *)
Theorem optimizeImage_wraps_compressor_failure :
  forall (imageCompression : File -> CompressionOptions -> outcome File)
         (file : File) (options : ImageOptimizationOptions),
    let first :=
      {| c_maxSizeMB := read (maxSizeMB (spread defaultOptions options));
         c_maxWidthOrHeight :=
           read (maxWidthOrHeight (spread defaultOptions options));
         c_useWebWorker := read (useWebWorker (spread defaultOptions options));
         c_fileType := file_type file |} in
    let second :=
      {| c_maxSizeMB := Some (2 # 1)%Q;
         c_maxWidthOrHeight := Some 1600;
         c_useWebWorker := read (useWebWorker (spread defaultOptions options));
         c_fileType := file_type file |} in
    (forall e,
        startsWith (file_type file) (js "image/") = true ->
        size file <= 10 * (1024 * 1024) ->
        imageCompression file first = Throw e ->
        optimizeImage imageCompression file options
        = Throw (if instanceofError e then e else Error msg_failed))
    /\ (forall e big,
           startsWith (file_type file) (js "image/") = true ->
           size file <= 10 * (1024 * 1024) ->
           imageCompression file first = Return big ->
           3 * (1024 * 1024) < size big ->
           imageCompression file second = Throw e ->
           optimizeImage imageCompression file options
           = Throw (if instanceofError e then e else Error msg_failed))
    /\ (forall e,
           optimizeImage imageCompression file options = Throw e ->
           instanceofError e = true).
Proof.
  intros compress file options first second. split; [|split].
  - intros e Himage Hsize Hthrow. unfold optimizeImage.
    rewrite Himage. apply N.ltb_ge in Hsize.
    change (10 * MB) with (10 * (1024 * 1024)). rewrite Hsize.
    cbn [negb throw_if]. fold first. rewrite Hthrow. cbn [bind try_catch].
    destruct (instanceofError e); reflexivity.
  - intros e big Himage Hsize Hbig Habove Hthrow. unfold optimizeImage.
    rewrite Himage. apply N.ltb_ge in Hsize. apply N.ltb_lt in Habove.
    change (10 * MB) with (10 * (1024 * 1024)). rewrite Hsize.
    cbn [negb throw_if]. fold first. rewrite Hbig. cbn [bind].
    change (3 * MB) with (3 * (1024 * 1024)). rewrite Habove.
    fold second. rewrite Hthrow. cbn [bind try_catch].
    destruct (instanceofError e); reflexivity.
  - intros e H. unfold optimizeImage in H.
    destruct (startsWith (file_type file) (js "image/"));
      [|cbn in H; injection H as <-; reflexivity].
    cbn [negb throw_if] in H.
    destruct (10 * MB <? size file); [cbn in H; injection H as <-; reflexivity|].
    cbn [throw_if] in H.
    destruct (compress file _) as [c1|e1]; cbn [bind] in H.
    + destruct (3 * MB <? size c1).
      * destruct (compress file _) as [c2|e2]; cbn [bind] in H.
        -- destruct (3 * MB <? size c2); cbn in H;
             [injection H as <-; reflexivity | discriminate H].
        -- cbn in H. destruct e2; injection H as <-; reflexivity.
      * discriminate H.
    + cbn in H. destruct e1; injection H as <-; reflexivity.
Qed.

Lemma optimizeImage_wraps_compressor_failure_witness :
  optimizeImage crashing photo noOptions = Throw (Error msg_failed)
  /\ optimizeImage stubborn photo noOptions = Throw (Error msg_failed).
Proof.
  destruct (optimizeImage_wraps_compressor_failure crashing photo noOptions)
    as (Hfirst & _ & _).
  destruct (optimizeImage_wraps_compressor_failure stubborn photo noOptions)
    as (_ & Hsecond & _).
  split.
  - apply (Hfirst (NotAnError 7)).
    + reflexivity.
    + vm_compute. discriminate.
    + reflexivity.
  - apply (Hsecond (NotAnError 7)
             {| file_type := js "image/jpeg"; size := 4 * MB; content := 1 |}).
    + reflexivity.
    + vm_compute. discriminate.
    + reflexivity.
    + reflexivity.
    + reflexivity.
Defined.

End OptimizerCases.

(** ** The upload *)

Module UploadProperties.

Import ImageOptimizer Upload Scenario Cases.

Lemma optimizeImage_small :
  forall compress file options out,
    optimizeImage compress file options = Return out ->
    size out <= 3 * (1024 * 1024).
Proof.
  intros compress file options out H. unfold optimizeImage in H.
  destruct (startsWith (file_type file) (js "image/")); [|discriminate H].
  cbn [negb throw_if] in H.
  destruct (10 * MB <? size file); [discriminate H|].
  cbn [throw_if] in H.
  destruct (compress file _) as [c1|e1]; cbn [bind] in H.
  - destruct (3 * MB <? size c1) eqn:Hc1.
    + destruct (compress file _) as [c2|e2]; cbn [bind] in H.
      * destruct (3 * MB <? size c2) eqn:Hc2; cbn [throw_if try_catch] in H;
          [discriminate H|].
        injection H as <-. now apply N.ltb_ge in Hc2.
      * cbn in H. destruct (instanceofError e2); discriminate H.
    + cbn [try_catch] in H. injection H as <-. now apply N.ltb_ge in Hc1.
  - cbn in H. destruct (instanceofError e1); discriminate H.
Qed.

Lemma or_string_truthy :
  forall a b, truthy b = true -> truthy (or_string a b) = true.
Proof.
  intros [s|] b Hb; cbn; [|exact Hb].
  destruct (truthy s) eqn:Hs; [exact Hs | exact Hb].
Qed.

(** X4. Without the Cloudinary cloud name or upload preset the upload
    throws the configuration error, and when [optimizeImage] throws the
    upload throws that same error; in both cases the outcome is the same
    whatever the network would answer. *)
Theorem upload_stops_before_the_network :
  forall (cloud : CloudinaryConfig)
         (imageCompression : File -> CompressionOptions -> outcome File)
         (error_message : jsstring -> lookup)
         (Date_now : jsstring) (file : File) (itemId : jsstring),
    (falsy (CLOUDINARY_CLOUD_NAME cloud)
       || falsy (CLOUDINARY_UPLOAD_PRESET cloud) = true ->
     forall fetch,
       uploadImage cloud imageCompression fetch error_message Date_now
         file itemId = Throw (Error msg_config))
    /\ (forall e,
          falsy (CLOUDINARY_CLOUD_NAME cloud)
            || falsy (CLOUDINARY_UPLOAD_PRESET cloud) = false ->
          optimizeImage imageCompression file noOptions = Throw e ->
          forall fetch,
            uploadImage cloud imageCompression fetch error_message Date_now
              file itemId = Throw e).
Proof.
  intros cloud compress parse clock file itemId.
  unfold uploadImage, uploadImageToCloudinary. split.
  - intros -> fetch. reflexivity.
  - intros e -> -> fetch. reflexivity.
Qed.

Lemma upload_stops_before_the_network_witness :
  uploadImage no_cloud quarter hosting no_json (js "1704096000000")
    photo (js "item-1") = Throw (Error msg_config)
  /\ uploadImage cloud quarter hosting no_json (js "1704096000000")
       pdf (js "item-1") = Throw (Error msg_not_image).
Proof.
  split.
  - destruct (upload_stops_before_the_network no_cloud quarter no_json
                (js "1704096000000") photo (js "item-1")) as [Hconfig _].
    apply Hconfig. reflexivity.
  - destruct (upload_stops_before_the_network cloud quarter no_json
                (js "1704096000000") pdf (js "item-1")) as [_ Hoptimize].
    apply Hoptimize; reflexivity.
Defined.

(** X5. When the upload reaches the network it sends one request: a POST
    to the cloud's upload address carrying the optimized file, which is at
    most 3 MB, the configured preset, the folder "lost-found-board" and the
    public id [itemId_now]; its outcome is what the code makes of the
    answer to that request. *)
Theorem upload_sends_the_optimized_file :
  forall (cloud : CloudinaryConfig)
         (imageCompression : File -> CompressionOptions -> outcome File)
         (error_message : jsstring -> lookup)
         (Date_now : jsstring) (file : File) (itemId : jsstring)
         (optimized : File),
    falsy (CLOUDINARY_CLOUD_NAME cloud)
      || falsy (CLOUDINARY_UPLOAD_PRESET cloud) = false ->
    optimizeImage imageCompression file noOptions = Return optimized ->
    size optimized <= 3 * (1024 * 1024)
    /\ forall fetch,
         uploadImage cloud imageCompression fetch error_message Date_now
           file itemId
         = (response <- fetch
              {| req_url := js "https://api.cloudinary.com/v1_1/"
                            ++ CLOUDINARY_CLOUD_NAME cloud
                            ++ js "/image/upload";
                 req_method := js "POST";
                 req_body :=
                   {| fd_file := optimized;
                      fd_upload_preset := CLOUDINARY_UPLOAD_PRESET cloud;
                      fd_folder := js "lost-found-board";
                      fd_public_id := itemId ++ js "_" ++ Date_now |} |} ;;
            read_response error_message response).
Proof.
  intros cloud compress parse clock file itemId optimized Hcfg Hopt.
  split; [now apply (optimizeImage_small compress file noOptions)|].
  intro fetch. unfold uploadImage, uploadImageToCloudinary.
  rewrite Hcfg, Hopt. cbn [bind]. apply OptimizerCases.try_rethrow.
Qed.

Lemma upload_sends_the_optimized_file_witness :
  uploadImage cloud quarter hosting no_json (js "1704096000000")
    photo (js "item-1") = Return hosted.
Proof.
  destruct (upload_sends_the_optimized_file cloud quarter no_json
              (js "1704096000000") photo (js "item-1")
              {| file_type := js "image/jpeg"; size := 2 * MB; content := 1 |}
              eq_refl eq_refl) as [_ Hsent].
  rewrite Hsent. reflexivity.
Defined.

(** X6. An upload that returns a URL returns a non-empty one, and it is
    the [secure_url] of a response that was [ok]. *)
Theorem upload_returns_the_secure_url :
  forall (cloud : CloudinaryConfig)
         (imageCompression : File -> CompressionOptions -> outcome File)
         (fetch : Request -> outcome Response)
         (error_message : jsstring -> lookup)
         (Date_now : jsstring) (file : File) (itemId url : jsstring),
    uploadImage cloud imageCompression fetch error_message Date_now
      file itemId = Return url ->
    truthy url = true
    /\ exists request response,
         fetch request = Return response
         /\ size (fd_file (req_body request)) <= 3 * (1024 * 1024)
         /\ ok response = true
         /\ secure_url response = Return (Some url).
Proof.
  intros cloud compress fetch parse clock file itemId url H.
  unfold uploadImage, uploadImageToCloudinary in H.
  rewrite OptimizerCases.try_rethrow in H.
  destruct (falsy (CLOUDINARY_CLOUD_NAME cloud)
            || falsy (CLOUDINARY_UPLOAD_PRESET cloud)); [discriminate H|].
  destruct (optimizeImage compress file noOptions) as [optimized|e] eqn:Hopt;
    cbn [bind] in H; [|discriminate H].
  destruct (fetch _) as [response|e] eqn:Hfetch; cbn [bind] in H;
    [|discriminate H].
  unfold read_response in H.
  destruct (ok response) eqn:Hok; cbn [negb] in H.
  - destruct (secure_url response) as [[u|]|e] eqn:Hurl; cbn [bind] in H;
      try discriminate H.
    destruct (truthy u) eqn:Hu; [|discriminate H].
    injection H as <-. split; [exact Hu|].
    eexists. exists response. split; [exact Hfetch|].
    cbn. split; [now apply (optimizeImage_small compress file noOptions)|].
    split; [exact Hok | exact Hurl].
  - destruct (text response) as [errorText|e]; cbn [bind] in H;
      [|discriminate H].
    destruct (parse errorText); discriminate H.
Qed.

Lemma upload_returns_the_secure_url_witness :
  truthy hosted = true.
Proof.
  apply (upload_returns_the_secure_url cloud quarter hosting no_json
           (js "1704096000000") photo (js "item-1") hosted eq_refl).
Defined.

(** X7. When the service answers with a response that is not [ok], the
    upload never returns a URL: it throws.  When reading [error.message] of
    the parsed text throws (the text parses to [null]), that exception is
    thrown; when it gives a string or nothing, an [Error] whose message is
    the first non-empty one of that string, the response text and
    "Failed to upload image to Cloudinary", so never an empty one; when it
    gives another truthy value, an [Error] with that value as its message;
    and when the text of the response cannot be read, that exception. *)
Theorem upload_failure_has_a_message :
  forall (cloud : CloudinaryConfig)
         (imageCompression : File -> CompressionOptions -> outcome File)
         (fetch : Request -> outcome Response)
         (error_message : jsstring -> lookup)
         (Date_now : jsstring) (file : File) (itemId : jsstring)
         (optimized : File) (response : Response),
    falsy (CLOUDINARY_CLOUD_NAME cloud)
      || falsy (CLOUDINARY_UPLOAD_PRESET cloud) = false ->
    optimizeImage imageCompression file noOptions = Return optimized ->
    (forall request, fetch request = Return response) ->
    ok response = false ->
    returns (uploadImage cloud imageCompression fetch error_message Date_now
               file itemId) = false
    /\ (forall e,
          text response = Throw e ->
          uploadImage cloud imageCompression fetch error_message Date_now
            file itemId = Throw e)
    /\ (forall errorText,
          text response = Return errorText ->
          match error_message errorText with
          | Raises e =>
              uploadImage cloud imageCompression fetch error_message Date_now
                file itemId = Throw e
          | NotText shown =>
              uploadImage cloud imageCompression fetch error_message Date_now
                file itemId = Throw (Error shown)
          | Text m =>
              uploadImage cloud imageCompression fetch error_message Date_now
                file itemId
              = Throw (Error (or_string (Some m)
                                (or_string (Some errorText) msg_upload_failed)))
              /\ truthy (or_string (Some m)
                           (or_string (Some errorText) msg_upload_failed))
                 = true
          | NoMessage =>
              uploadImage cloud imageCompression fetch error_message Date_now
                file itemId
              = Throw (Error (or_string (Some errorText) msg_upload_failed))
              /\ truthy (or_string (Some errorText) msg_upload_failed) = true
          end).
Proof.
  intros cloud compress fetch parse clock file itemId optimized response
    Hcfg Hopt Hfetch Hok.
  assert (Hupload :
            uploadImage cloud compress fetch parse clock file itemId
            = (errorText <- text response ;;
               upload_error (parse errorText) errorText)).
  { unfold uploadImage, uploadImageToCloudinary.
    rewrite Hcfg, Hopt. cbn [bind]. rewrite Hfetch. cbn [bind].
    unfold read_response. rewrite Hok. cbn [negb].
    apply OptimizerCases.try_rethrow. }
  rewrite Hupload. split; [|split].
  - destruct (text response) as [errorText|e]; [|reflexivity]. cbn [bind].
    now destruct (parse errorText).
  - intros e ->. reflexivity.
  - intros errorText ->. cbn [bind].
    destruct (parse errorText) as [e | | m | shown]; cbn [upload_error].
    + reflexivity.
    + split; [reflexivity|]. now apply or_string_truthy.
    + split; [reflexivity|]. apply or_string_truthy. now apply or_string_truthy.
    + reflexivity.
Qed.

Lemma upload_failure_has_a_message_witness :
  uploadImage cloud quarter refusing no_json (js "1704096000000")
    photo (js "item-1") = Throw (Error (js "Upload preset not found"))
  /\ uploadImage cloud quarter refusing_null parses_null (js "1704096000000")
       photo (js "item-1") = Throw type_error.
Proof.
  split.
  - destruct (upload_failure_has_a_message cloud quarter refusing no_json
                (js "1704096000000") photo (js "item-1")
                {| file_type := js "image/jpeg"; size := 2 * MB; content := 1 |}
                {| ok := false; text := Return (js "Upload preset not found");
                   secure_url := Throw (NotAnError 0) |}
                eq_refl eq_refl (fun _ => eq_refl) eq_refl)
      as (_ & _ & Hmessage).
    apply (Hmessage (js "Upload preset not found") eq_refl).
  - destruct (upload_failure_has_a_message cloud quarter refusing_null
                parses_null (js "1704096000000") photo (js "item-1")
                {| file_type := js "image/jpeg"; size := 2 * MB; content := 1 |}
                {| ok := false; text := Return (js "null");
                   secure_url := Throw (NotAnError 0) |}
                eq_refl eq_refl (fun _ => eq_refl) eq_refl)
      as (_ & _ & Hmessage).
    apply (Hmessage (js "null") eq_refl).
Defined.

End UploadProperties.

(** ** The write calls and the flows that use them *)

Module CrudProperties.

Import Supabase App Scenario Cases.

Lemma stored_other :
  forall i j p t,
    JS.eqb j i = false ->
    stored j (table_update i p t) = stored j t.
Proof.
  intros i j p t Hji. rewrite WriteProperties.stored_table_update.
  destruct (stored j t) as [r|] eqn:Hr; [|reflexivity]. cbn.
  now rewrite (WriteProperties.stored_id _ _ _ Hr), Hji.
Qed.

Lemma table_update_unknown :
  forall i p t, stored i t = None -> table_update i p t = t.
Proof.
  intros i p t H. unfold stored in H. unfold table_update.
  induction t as [|r t IH]; cbn in *; [reflexivity|].
  destruct (JS.eqb (r_id r) i); [discriminate H|]. now rewrite IH.
Qed.

Lemma stored_table_delete :
  forall i j t,
    stored j (table_delete i t)
    = if JS.eqb j i then None else stored j t.
Proof.
  intros i j t. unfold stored, table_delete.
  induction t as [|r t IH]; cbn.
  - now destruct (JS.eqb j i).
  - destruct (JS.eqb (r_id r) i) eqn:Hri; cbn.
    + rewrite IH. destruct (JS.eqb j i) eqn:Hji; [reflexivity|].
      destruct (JS.eqb (r_id r) j) eqn:Hrj; [|reflexivity].
      apply eqb_eq in Hri, Hrj. subst. now rewrite eqb_refl in Hji.
    + destruct (JS.eqb (r_id r) j) eqn:Hrj; [|exact IH].
      apply eqb_eq in Hrj. subst. now rewrite Hri.
Qed.

Lemma update_returns :
  forall q i updates t t',
    updateLostFoundItem q i updates t = Return t' ->
    not_configured (config q) = false
    /\ rejection q = None
    /\ t' = table_update i (stamp (now q) (itemToRow updates)) t.
Proof.
  intros q i updates t t' H. unfold updateLostFoundItem in H.
  destruct (not_configured (config q)); cbn in H; [discriminate H|].
  destruct (rejection q); cbn in H; [discriminate H|].
  injection H as <-. repeat split.
Qed.

(** X8. When the service rejects a write, each of the three write calls
    throws the service's own error, so the caller sees why; an update or a
    delete the service accepts returns. *)
Theorem writes_propagate_failures :
  forall (q : Request) (i : jsstring) (item : PartialItem) (t : Table),
    not_configured (config q) = false ->
    (forall error,
        rejection q = Some error ->
        addLostFoundItem q item t = Throw error
        /\ updateLostFoundItem q i item t = Throw error
        /\ deleteLostFoundItem q i t = Throw error)
    /\ (rejection q = None ->
        returns (updateLostFoundItem q i item t) = true
        /\ returns (deleteLostFoundItem q i t) = true).
Proof.
  intros q i item t Hc.
  unfold addLostFoundItem, updateLostFoundItem, deleteLostFoundItem.
  rewrite Hc. split.
  - intros error ->. repeat split.
  - intros ->. repeat split.
Qed.

Lemma writes_propagate_failures_witness :
  updateLostFoundItem rejected (js "item-1")
    (newItem lost [] [] [] [] None active) posted = Throw denied
  /\ returns (deleteLostFoundItem noon (js "item-1") posted) = true.
Proof.
  destruct (writes_propagate_failures rejected (js "item-1")
              (newItem lost [] [] [] [] None active) posted eq_refl)
    as (Hrejected & _).
  destruct (writes_propagate_failures noon (js "item-1")
              (newItem lost [] [] [] [] None active) posted eq_refl)
    as (_ & Haccepted).
  split.
  - apply (Hrejected denied). reflexivity.
  - apply Haccepted. reflexivity.
Defined.

(** X9. An update that succeeds keeps the number and order of the rows,
    their ids and creation stamps, leaves every row of another id as it
    was, and stamps the row of its id with the time of the request. *)
Theorem update_keeps_the_other_rows :
  forall (q : Request) (i : jsstring) (updates : PartialItem) (t t' : Table),
    updateLostFoundItem q i updates t = Return t' ->
    map r_id t' = map r_id t
    /\ map created_at t' = map created_at t
    /\ (forall j, JS.eqb j i = false -> stored j t' = stored j t)
    /\ (forall r, stored i t = Some r ->
          exists r', stored i t' = Some r' /\ updated_at r' = now q).
Proof.
  intros q i updates t t' H.
  apply update_returns in H as (_ & _ & ->).
  repeat split.
  - unfold table_update. rewrite map_map. apply map_ext.
    intro r. now destruct (JS.eqb (r_id r) i).
  - unfold table_update. rewrite map_map. apply map_ext.
    intro r. now destruct (JS.eqb (r_id r) i).
  - intros j Hj. now apply stored_other.
  - intros r Hr. rewrite WriteProperties.stored_table_update, Hr. cbn.
    rewrite (WriteProperties.stored_id _ _ _ Hr), eqb_refl.
    eexists. split; reflexivity.
Qed.

Lemma update_keeps_the_other_rows_witness :
  map r_id marked = map r_id posted
  /\ map created_at marked = map created_at posted.
Proof.
  destruct (update_keeps_the_other_rows
              (request (at_ "2024-01-01T10:00:00.000Z")) (js "item-1")
              {| p_type := None; p_title := None; p_description := None;
                 p_location := None; p_contactInfo := None;
                 p_imageUrl := None; p_status := Some claimed |}
              posted marked eq_refl) as (Hids & Hcreated & _).
  split; [exact Hids | exact Hcreated].
Defined.

(** X10. An update for an id the table does not hold succeeds and changes
    nothing. *)
Theorem update_of_unknown_id_changes_nothing :
  forall (q : Request) (i : jsstring) (updates : PartialItem) (t : Table),
    not_configured (config q) = false ->
    rejection q = None ->
    stored i t = None ->
    updateLostFoundItem q i updates t = Return t.
Proof.
  intros q i updates t Hc Hr Hnone. unfold updateLostFoundItem.
  rewrite Hc, Hr. cbn. now rewrite table_update_unknown.
Qed.

Lemma update_of_unknown_id_changes_nothing_witness :
  updateLostFoundItem noon (js "item-404")
    (newItem found [] [] [] [] None resolved) posted = Return posted.
Proof.
  apply (update_of_unknown_id_changes_nothing noon (js "item-404")
           (newItem found [] [] [] [] None resolved) posted);
    reflexivity.
Defined.

End CrudProperties.

(** ** The create, edit, status-change and delete flows *)

Module FlowProperties.

Import Supabase App Scenario Cases.

Lemma deleteImage_if_returns : forall u, deleteImage_if u = Return tt.
Proof. intros [u|]; cbn; [destruct (truthy u)|]; reflexivity. Qed.

(** What a status change writes when the service accepts it. *)
Lemma status_update_returns :
  forall env i st t,
    not_configured (config (request env)) = false ->
    rejection (request env) = None ->
    handleStatusChange env i st t
    = table_update i
        (stamp (now (request env))
           (itemToRow {| p_type := None; p_title := None;
                         p_description := None; p_location := None;
                         p_contactInfo := None; p_imageUrl := None;
                         p_status := Some st |})) t.
Proof.
  intros env i st t Hc Hr. unfold handleStatusChange, updateLostFoundItem.
  now rewrite Hc, Hr.
Qed.

(** X11. A create submission that succeeds adds a row holding what the
    code sent: the submitted type and texts, status active, and as image
    the URL the upload returned for the key [temp_<now>] (null when no
    file was attached); read back through [rowToItem] the item is active
    with that image.  The rows stored before are kept. *)
Theorem create_stores_the_submission :
  forall (env : Env) (data : LostFoundItemInput) (t t' : Table),
    handleSubmitForm env None data t = Return t' ->
    exists row,
      In row t'
      /\ (forall r, In r t -> In r t')
      /\ r_type row = in_type data
      /\ r_title row = in_title data
      /\ r_description row = in_description data
      /\ r_location row = in_location data
      /\ contact_info row = in_contactInfo data
      /\ r_status row = Value active
      /\ status (rowToItem row) = active
      /\ image_url row
         = match in_image data with
           | None => Null
           | Some file =>
               match uploadImage env file (js "temp_" ++ Date_now env) with
               | Return url => if truthy url then Value url else Null
               | Throw _ => Null
               end
           end
      /\ imageUrl (rowToItem row)
         = match in_image data with
           | None => None
           | Some file =>
               match uploadImage env file (js "temp_" ++ Date_now env) with
               | Return url => if truthy url then Some url else None
               | Throw _ => None
               end
           end.
Proof.
  intros env data t t' H. unfold handleSubmitForm in H.
  rewrite OptimizerCases.try_rethrow in H.
  destruct (in_image data) as [file|].
  - destruct (uploadImage env file (js "temp_" ++ Date_now env))
      as [url|e]; cbn [bind] in H; [|discriminate H].
    unfold addLostFoundItem in H.
    destruct (not_configured (config (request env))); cbn in H;
      [discriminate H|].
    destruct (rejection (request env)); cbn in H; [discriminate H|].
    injection H as <-. eexists. split; [now left|].
    split; [intros r Hr; now right|].
    cbn. repeat split; now destruct url.
  - cbn [bind] in H. unfold addLostFoundItem in H.
    destruct (not_configured (config (request env))); cbn in H;
      [discriminate H|].
    destruct (rejection (request env)); cbn in H; [discriminate H|].
    injection H as <-. eexists. split; [now left|].
    split; [intros r Hr; now right|].
    cbn. repeat split.
Qed.

Lemma create_stores_the_submission_witness :
  exists row,
    In row posted
    /\ r_status row = Value active
    /\ image_url row = Value hosted.
Proof.
  destruct (create_stores_the_submission morning backpack_with_photo []
              posted eq_refl)
    as (row & Hrow & _ & _ & _ & _ & _ & _ & Hstatus & _ & Himage & _).
  exists row. split; [exact Hrow | split; [exact Hstatus | exact Himage]].
Defined.

(** X12. When a file is attached and its upload throws, the submission
    throws the same error, for a new item and for an edited one alike: no
    write is attempted. *)
Theorem failed_upload_aborts_the_submission :
  forall (env : Env) (editingItem : option LostFoundItem)
         (data : LostFoundItemInput) (file : File) (error : thrown)
         (t : Table),
    in_image data = Some file ->
    uploadImage env file
      (match editingItem with
       | Some editing => id editing
       | None => js "temp_" ++ Date_now env
       end) = Throw error ->
    handleSubmitForm env editingItem data t = Throw error.
Proof.
  intros env [editing|] data file error t Hfile Hupload;
    unfold handleSubmitForm; rewrite Hfile.
  - rewrite deleteImage_if_returns. cbn [bind]. now rewrite Hupload.
  - now rewrite Hupload.
Qed.

Lemma failed_upload_aborts_the_submission_witness :
  handleSubmitForm
    {| request := noon;
       uploadImage := fun _ _ => Throw (Error Upload.msg_config);
       Date_now := js "1704096000000"; confirm := true |}
    None backpack_with_photo posted
  = Throw (Error Upload.msg_config).
Proof.
  apply (failed_upload_aborts_the_submission
           {| request := noon;
              uploadImage := fun _ _ => Throw (Error Upload.msg_config);
              Date_now := js "1704096000000"; confirm := true |}
           None backpack_with_photo photo (Error Upload.msg_config) posted);
    reflexivity.
Defined.

(** X13. An edit submission that succeeds stores the submitted title,
    description, location and contact, keeps the id and the creation
    stamp, stamps the update time, and sets the image column to the URL of
    the newly uploaded file, or to null when no file was attached. *)
Theorem edit_stores_the_submission :
  forall (env : Env) (editing : LostFoundItem) (data : LostFoundItemInput)
         (t t' : Table) (r : Row),
    handleSubmitForm env (Some editing) data t = Return t' ->
    stored (id editing) t = Some r ->
    exists r',
      stored (id editing) t' = Some r'
      /\ r_id r' = r_id r
      /\ created_at r' = created_at r
      /\ updated_at r' = now (request env)
      /\ r_title r' = in_title data
      /\ r_description r' = in_description data
      /\ r_location r' = in_location data
      /\ contact_info r' = in_contactInfo data
      /\ image_url r'
         = match in_image data with
           | None => Null
           | Some file =>
               match uploadImage env file (id editing) with
               | Return url => if truthy url then Value url else Null
               | Throw _ => Null
               end
           end.
Proof.
  intros env editing data t t' r H Hr. unfold handleSubmitForm in H.
  rewrite OptimizerCases.try_rethrow in H.
  destruct (in_image data) as [file|].
  - rewrite deleteImage_if_returns in H. cbn [bind] in H.
    destruct (uploadImage env file (id editing)) as [url|e]; cbn [bind] in H;
      [|discriminate H].
    apply CrudProperties.update_returns in H as (_ & _ & ->).
    rewrite WriteProperties.stored_table_update, Hr. cbn [option_map].
    rewrite (WriteProperties.stored_id _ _ _ Hr), eqb_refl.
    eexists. split; [reflexivity|]. cbn. repeat split.
    + exact (WriteProperties.stored_id _ _ _ Hr).
    + now destruct url.
  - cbn [bind] in H.
    apply CrudProperties.update_returns in H as (_ & _ & ->).
    rewrite WriteProperties.stored_table_update, Hr. cbn [option_map].
    rewrite (WriteProperties.stored_id _ _ _ Hr), eqb_refl.
    eexists. split; [reflexivity|]. cbn. repeat split.
    exact (WriteProperties.stored_id _ _ _ Hr).
Qed.

Lemma edit_stores_the_submission_witness :
  exists r',
    stored (js "item-1") retyped = Some r'
    /\ r_title r' = js "Blue Backpack"
    /\ image_url r' = Null.
Proof.
  destruct (edit_stores_the_submission (at_ "2024-01-01T11:00:00.000Z")
              posted_editing backpack_as_found posted retyped
              (hd bare_row posted) eq_refl eq_refl)
    as (r' & Hr' & _ & _ & _ & Htitle & _ & _ & _ & Himage).
  exists r'. split; [exact Hr' | split; [exact Htitle | exact Himage]].
Defined.

(** X14. A status change that succeeds sets the status column of the row
    to the requested status and stamps the update time; the id, type,
    title, description, location, contact and creation stamp of the row
    stay as stored.  Without configuration, or when the service rejects
    it, the table is as before. *)
Theorem status_change_keeps_the_texts :
  forall (env : Env) (i : jsstring) (st : Status) (t : Table),
    (not_configured (config (request env)) = false ->
     rejection (request env) = None ->
     forall r, stored i t = Some r ->
       exists r',
         stored i (handleStatusChange env i st t) = Some r'
         /\ r_status r' = Value st
         /\ updated_at r' = now (request env)
         /\ r_id r' = r_id r /\ r_type r' = r_type r
         /\ r_title r' = r_title r /\ r_description r' = r_description r
         /\ r_location r' = r_location r /\ contact_info r' = contact_info r
         /\ created_at r' = created_at r)
    /\ (not_configured (config (request env)) = true
        \/ rejection (request env) <> None ->
        handleStatusChange env i st t = t).
Proof.
  intros env i st t. split.
  - intros Hc Hrej r Hr. rewrite (status_update_returns _ _ _ _ Hc Hrej).
    rewrite WriteProperties.stored_table_update, Hr. cbn [option_map].
    rewrite (WriteProperties.stored_id _ _ _ Hr), eqb_refl.
    eexists. split; [reflexivity|]. cbn. repeat split.
    exact (WriteProperties.stored_id _ _ _ Hr).
  - intro H. unfold handleStatusChange, updateLostFoundItem.
    destruct (not_configured (config (request env))); [reflexivity|].
    destruct (rejection (request env)); [reflexivity|].
    destruct H as [H | H]; [discriminate H | now contradiction H].
Qed.

Lemma status_change_keeps_the_texts_witness :
  (exists r',
     stored (js "item-1") marked = Some r'
     /\ r_status r' = Value claimed /\ r_title r' = js "Blue Backpack")
  /\ handleStatusChange refused (js "item-1") claimed posted = posted.
Proof.
  split.
  - destruct (status_change_keeps_the_texts
                (at_ "2024-01-01T10:00:00.000Z") (js "item-1") claimed posted)
      as [Hok _].
    destruct (Hok eq_refl eq_refl (hd bare_row posted) eq_refl)
      as (r' & Hr' & Hstatus & _ & _ & _ & Htitle & _).
    exists r'. split; [exact Hr' | split; [exact Hstatus | exact Htitle]].
  - destruct (status_change_keeps_the_texts refused (js "item-1") claimed
                posted) as [_ Hfail].
    apply Hfail. right. discriminate.
Defined.

(** X15. Deleting: when the user declines the confirmation the table is
    as before; the outcome does not depend on the list the view holds, so
    the image step never blocks the row's deletion; and a confirmed delete
    that the service accepts leaves no row of that id and every other id
    as it was. *)
Theorem delete_removes_the_row :
  forall (env : Env) (items : list LostFoundItem) (i : jsstring) (t : Table),
    (confirm env = false -> handleDeleteItem env items i t = t)
    /\ handleDeleteItem env items i t = handleDeleteItem env [] i t
    /\ (confirm env = true ->
        not_configured (config (request env)) = false ->
        rejection (request env) = None ->
        stored i (handleDeleteItem env items i t) = None
        /\ forall j, JS.eqb j i = false ->
             stored j (handleDeleteItem env items i t) = stored j t).
Proof.
  intros env items i t. unfold handleDeleteItem. split; [|split].
  - intros ->. reflexivity.
  - destruct (confirm env); cbn [negb]; [|reflexivity].
    now rewrite !deleteImage_if_returns.
  - intros -> Hc Hr. cbn [negb]. rewrite deleteImage_if_returns.
    cbn [bind]. unfold deleteLostFoundItem. rewrite Hc, Hr.
    cbn [bind try_catch rethrow]. split.
    + now rewrite CrudProperties.stored_table_delete, eqb_refl.
    + intros j Hj. now rewrite CrudProperties.stored_table_delete, Hj.
Qed.

Lemma delete_removes_the_row_witness :
  stored (js "item-1") (handleDeleteItem morning [] (js "item-1") posted) = None
  /\ handleDeleteItem
       {| request := noon; uploadImage := fun _ _ => Return hosted;
          Date_now := []; confirm := false |}
       [] (js "item-1") posted = posted.
Proof.
  split.
  - destruct (delete_removes_the_row morning [] (js "item-1") posted)
      as (_ & _ & Hgone).
    apply (Hgone eq_refl eq_refl eq_refl).
  - destruct (delete_removes_the_row
                {| request := noon; uploadImage := fun _ _ => Return hosted;
                   Date_now := []; confirm := false |}
                [] (js "item-1") posted) as (Hdeclined & _).
    apply Hdeclined. reflexivity.
Defined.

(** X16. A card offers the status change only for an active item, always
    for that item and always to claimed; once the change is stored, the
    card of the stored row offers no status change any more. *)
Theorem card_marks_claimed_once :
  forall (env : Env) (t : Table) (r : Row) (i : jsstring) (st : Status),
    stored (r_id r) t = Some r ->
    In (ItemCard.onStatusChange i st) (ItemCard.buttons (rowToItem r)) ->
    not_configured (config (request env)) = false ->
    rejection (request env) = None ->
    i = r_id r /\ st = claimed /\ status (rowToItem r) = active
    /\ exists r',
         stored (r_id r) (handleStatusChange env i st t) = Some r'
         /\ forall i' st',
              ~ In (ItemCard.onStatusChange i' st')
                   (ItemCard.buttons (rowToItem r')).
Proof.
  intros env t r i st Hr Hin Hc Hrej.
  unfold ItemCard.buttons, ItemCard.isActive in Hin.
  destruct (status (rowToItem r)) eqn:Hstatus; cbn in Hin;
    try (destruct Hin as [H | [H | []]]; discriminate H).
  destruct Hin as [H | [H | [H | []]]]; try discriminate H.
  injection H as <- <-. cbn [id rowToItem]. repeat split.
  rewrite (status_update_returns _ _ _ _ Hc Hrej).
  rewrite WriteProperties.stored_table_update, Hr. cbn [option_map].
  rewrite eqb_refl. eexists. split; [reflexivity|].
  intros i' st' Hin. cbn in Hin.
  destruct Hin as [H | [H | []]]; discriminate H.
Qed.

Lemma card_marks_claimed_once_witness :
  exists r',
    stored (js "item-1")
      (handleStatusChange morning (js "item-1") claimed posted) = Some r'
    /\ forall i' st',
         ~ In (ItemCard.onStatusChange i' st')
              (ItemCard.buttons (rowToItem r')).
Proof.
  destruct (card_marks_claimed_once morning posted (hd bare_row posted)
              (js "item-1") claimed eq_refl (or_introl eq_refl)
              eq_refl eq_refl) as (_ & _ & _ & Hafter).
  exact Hafter.
Defined.

End FlowProperties.

(** ** The derived view and the counters *)

Module ViewFacts.

Import App Scenario Cases.

Lemma Status_eqb_eq : forall a b, Status_eqb a b = true <-> a = b.
Proof. intros [] []; cbn; split; intro H; try reflexivity; discriminate H. Qed.

Lemma ItemType_eqb_eq : forall a b, ItemType_eqb a b = true <-> a = b.
Proof. intros [] []; cbn; split; intro H; try reflexivity; discriminate H. Qed.

Lemma filter_twice {A : Type} (p : A -> bool) (l : list A) :
  filter p (filter p l) = filter p l.
Proof.
  rewrite filter_both. apply filter_ext. intro x. now destruct (p x).
Qed.

Lemma filter_shorter {A : Type} (p : A -> bool) (l : list A) :
  (List.length (filter p l) <= List.length l)%nat.
Proof.
  induction l as [|x l IH]; cbn; [lia|]. destruct (p x); cbn; lia.
Qed.

Lemma view_as_filter :
  forall lower items f q,
    filteredItems lower items f q
    = filter (fun item => spec_kind f item && spec_visible f item
                          && blank_text lower q item) items.
Proof.
  intros lower items f q. unfold filteredItems.
  rewrite ViewProperties.bySearch_filter, ViewProperties.byStatus_filter,
    ViewProperties.byType_filter, !filter_both.
  apply filter_ext. intro item. apply andb_assoc.
Qed.

(** X17. An item that is claimed or resolved is never shown under the
    "lost" or "found" filter, whatever the query; under "all" it is shown
    whenever it passes the search. *)
Theorem closed_items_show_only_under_all :
  forall (toLowerCase : jsstring -> jsstring) (items : list LostFoundItem)
         (kind : ItemType) (q : jsstring) (item : LostFoundItem),
    In item items ->
    status item <> active ->
    ~ In item (filteredItems toLowerCase items (only kind) q)
    /\ (blank_text toLowerCase q item = true ->
        In item (filteredItems toLowerCase items all q)).
Proof.
  intros lower items kind q item Hin Hclosed. rewrite !view_as_filter. split.
  - intro H. apply filter_In in H as [_ H].
    apply andb_true_iff in H as [H _]. apply andb_true_iff in H as [_ H].
    cbn in H. apply Status_eqb_eq in H. contradiction.
  - intro Hq. apply filter_In. split; [exact Hin|]. cbn. exact Hq.
Qed.

Lemma closed_items_show_only_under_all_witness :
  ~ In claimed_keys
      (filteredItems asciiToLowerCase [keys; claimed_keys] (only found) (js "key"))
  /\ In claimed_keys
       (filteredItems asciiToLowerCase [keys; claimed_keys] all (js "key")).
Proof.
  destruct (closed_items_show_only_under_all asciiToLowerCase
              [keys; claimed_keys] found (js "key") claimed_keys)
    as [Hhidden Hshown].
  - right. left. reflexivity.
  - discriminate.
  - split; [exact Hhidden | apply Hshown; reflexivity].
Defined.

(** X18. Under a kind filter every item shown comes from the list, is of
    that kind and is active; and whatever a kind filter shows, "all" shows
    too for the same query. *)
Theorem kind_view_is_active_of_that_kind :
  forall (toLowerCase : jsstring -> jsstring) (items : list LostFoundItem)
         (kind : ItemType) (q : jsstring) (item : LostFoundItem),
    In item (filteredItems toLowerCase items (only kind) q) ->
    In item items
    /\ type item = kind
    /\ status item = active
    /\ In item (filteredItems toLowerCase items all q).
Proof.
  intros lower items kind q item H. rewrite view_as_filter in *.
  apply filter_In in H as [Hin H].
  apply andb_true_iff in H as [H Hq]. apply andb_true_iff in H as [Hk Hv].
  cbn in Hk, Hv. apply ItemType_eqb_eq in Hk. apply Status_eqb_eq in Hv.
  repeat split; try assumption.
  apply filter_In. split; [exact Hin | exact Hq].
Qed.

Lemma kind_view_is_active_of_that_kind_witness :
  type keys = found /\ status keys = active.
Proof.
  destruct (kind_view_is_active_of_that_kind asciiToLowerCase
              [keys; claimed_keys] found (js "GYM") keys
              (or_introl eq_refl)) as (_ & Hkind & Hstatus & _).
  split; [exact Hkind | exact Hstatus].
Defined.

(** X19. The view judges each item on its own: the view of two lists put
    together is the two views put together, deriving the view of a view
    changes nothing, a view never has more items than the list, and with
    "all" and the empty query it is the whole list. *)
Theorem view_is_itemwise :
  forall (toLowerCase : jsstring -> jsstring) (a b : list LostFoundItem)
         (f : Filter) (q : jsstring),
    filteredItems toLowerCase (a ++ b) f q
    = filteredItems toLowerCase a f q ++ filteredItems toLowerCase b f q
    /\ filteredItems toLowerCase (filteredItems toLowerCase a f q) f q
       = filteredItems toLowerCase a f q
    /\ (List.length (filteredItems toLowerCase a f q) <= List.length a)%nat
    /\ filteredItems toLowerCase a all [] = a.
Proof.
  intros lower a b f q. rewrite !view_as_filter. repeat split.
  - apply filter_app.
  - apply filter_twice.
  - apply filter_shorter.
  - cbn. apply filter_all.
Qed.

(** X20. The two counters of the header are the sizes of the "lost" and
    "found" views with an empty query, and together they count the active
    items. *)
Theorem counters_agree_with_the_views :
  forall (toLowerCase : jsstring -> jsstring) (items : list LostFoundItem),
    Controller.lostCount items
    = List.length (filteredItems toLowerCase items (only lost) [])
    /\ Controller.foundCount items
       = List.length (filteredItems toLowerCase items (only found) [])
    /\ (Controller.lostCount items + Controller.foundCount items
        = List.length (filter (fun i => Status_eqb (status i) active) items))%nat.
Proof.
  intros lower items. rewrite !view_as_filter.
  unfold Controller.lostCount, Controller.foundCount. repeat split.
  - f_equal. apply filter_ext. intro i. cbn. now rewrite andb_true_r.
  - f_equal. apply filter_ext. intro i. cbn. now rewrite andb_true_r.
  - induction items as [|i items IH]; cbn; [reflexivity|].
    destruct (type i), (status i); cbn; lia.
Qed.

End ViewFacts.

(** ** The state of the component *)

Module ControllerProperties.

Import Supabase Controller Scenario Cases.

(** X21. A refresh always ends the loading state and leaves the form as
    it is; when the read does not give the rows (failed transport, error
    answer) the held list becomes empty, and otherwise it becomes the
    answered rows, in their order, mapped by [rowToItem]. *)
Theorem refresh_replaces_the_list :
  forall (c : Config) (r : response (list Row)) (st : State),
    not_configured c = false ->
    loading (refreshItems c r st) = false
    /\ showForm (refreshItems c r st) = showForm st
    /\ editingItem (refreshItems c r st) = editingItem st
    /\ (fails r = true -> items (refreshItems c r st) = [])
    /\ (forall rows,
          r = Answer (Some rows) None ->
          items (refreshItems c r st) = map rowToItem rows).
Proof.
  intros c r st Hc. unfold refreshItems, fails, getLostFoundItems, read_body.
  cbn [loading showForm editingItem items]. rewrite Hc. repeat split.
  - destruct r as [e | data [err|]]; cbn; intro H;
      try reflexivity; discriminate H.
  - intros rows ->. reflexivity.
Qed.

Lemma refresh_replaces_the_list_witness :
  items (refreshItems configured (Failed (NotAnError 0))
           (deliver [keys; claimed_keys] mounted)) = []
  /\ items (refreshItems configured (Answer (Some posted) None) mounted)
     = map rowToItem posted.
Proof.
  destruct (refresh_replaces_the_list configured (Failed (NotAnError 0))
              (deliver [keys; claimed_keys] mounted) eq_refl)
    as (_ & _ & _ & Hfailed & _).
  destruct (refresh_replaces_the_list configured (Answer (Some posted) None)
              mounted eq_refl) as (_ & _ & _ & _ & Hrows).
  split.
  - apply Hfailed. reflexivity.
  - apply (Hrows posted). reflexivity.
Defined.

(** X22. A submission whose writes throw leaves the table, the held list
    and the form as they were, open on the same item, and rethrows; one
    that succeeds closes the form and ends the loading state.  Either way
    [isSubmitting] is false afterwards, and while it is true closing the
    form does nothing. *)
Theorem failed_submission_keeps_the_form_open :
  forall (env : App.Env) (r : response (list Row))
         (data : LostFoundItemInput) (t : Table) (st : State),
    (forall error,
        App.handleSubmitForm env (editingItem st) data t = Throw error ->
        handleSubmitForm env r data t st
        = (Throw error, t, set_submitting false st))
    /\ (forall t',
          App.handleSubmitForm env (editingItem st) data t = Return t' ->
          exists st',
            handleSubmitForm env r data t st = (Return tt, t', st')
            /\ showForm st' = false /\ editingItem st' = None
            /\ loading st' = false /\ isSubmitting st' = false)
    /\ handleCloseForm (set_submitting true st) = set_submitting true st.
Proof.
  intros env r data t st. unfold handleSubmitForm. repeat split.
  - intros error ->. reflexivity.
  - intros t' ->. eexists. repeat split.
Qed.

Lemma failed_submission_keeps_the_form_open_witness :
  handleSubmitForm refused (Failed (NotAnError 0)) backpack posted
    (handleAddItem mounted)
  = (Throw denied, posted, set_submitting false (handleAddItem mounted)).
Proof.
  destruct (failed_submission_keeps_the_form_open refused
              (Failed (NotAnError 0)) backpack posted (handleAddItem mounted))
    as (Hfailed & _ & _).
  apply Hfailed. reflexivity.
Defined.

End ControllerProperties.

(** ** The form *)

Module FormFacts.

Import ImageOptimizer ItemForm Invariants Scenario Cases.

Lemma acts_cons : forall a l st, acts (a :: l) st = acts l (act a st).
Proof. reflexivity. Qed.

(** A property kept by every action holds after any run of actions. *)
Lemma acts_keep (P : State -> Prop) :
  (forall a st, P st -> P (act a st)) ->
  forall l st, P st -> P (acts l st).
Proof.
  intros Hstep. induction l as [|a l IH]; intros st H; [exact H|].
  rewrite acts_cons. apply IH. now apply Hstep.
Qed.

Lemma act_keeps_checked_file :
  forall a st, holds_checked_file st -> holds_checked_file (act a st).
Proof.
  intros a st H. unfold act. destruct (closed st); [exact H|].
  destruct a as [c | file url | | onSubmit].
  - exact H.
  - destruct (defined (imagePreview st)); [exact H|].
    unfold handleImageChange.
    destruct (startsWith (file_type file) (js "image/")) eqn:Htype;
      cbn [negb]; [|exact H].
    destruct (10 * MB <? size file) eqn:Hsize; [exact H|].
    intros f Hf. cbn in Hf. injection Hf as <-.
    apply N.ltb_ge in Hsize.
    split; [exact Htype | split; [exact Hsize|]].
    exists url. cbn. split; [reflexivity | now left].
  - destruct (defined (imagePreview st)); [|exact H].
    intros f Hf. discriminate Hf.
  - unfold handleSubmit.
    destruct (falsy (trim (f_title (formData st)))
              || falsy (trim (f_description (formData st)))); [exact H|].
    destruct (onSubmit (submitData st)); exact H.
Qed.

(** X23. Whatever the user does with a form, the file it holds (and
    submits) was accepted by [handleImageChange]: its declared type is an
    image, it is at most 10 MB, and a preview created for it is set. *)
Theorem form_holds_only_checked_files :
  forall (it : option LostFoundItem) (urls : ObjectURLs) (l : list action)
         (f : File),
    in_image (submitData (acts l (opened it urls))) = Some f ->
    startsWith (file_type f) (js "image/") = true
    /\ size f <= 10 * (1024 * 1024)
    /\ exists u,
         imagePreview (acts l (opened it urls)) = Some u
         /\ In u (previews (acts l (opened it urls))).
Proof.
  intros it urls l f H.
  apply (acts_keep holds_checked_file act_keeps_checked_file l
           (opened it urls)); [|exact H].
  intros f' Hf'. discriminate Hf'.
Qed.

Lemma form_holds_only_checked_files_witness :
  startsWith (file_type photo) (js "image/") = true
  /\ size photo <= 10 * (1024 * 1024).
Proof.
  destruct (form_holds_only_checked_files None []
              [choose pdf (js "blob:a"); choose huge (js "blob:b");
               choose photo blob] photo eq_refl)
    as (Htype & Hsize & _).
  split; [exact Htype | exact Hsize].
Defined.

(** X24. [handleSubmit] does not call [onSubmit] when the title or the
    description is empty once trimmed, and changes nothing then; it
    changes nothing either when [onSubmit] throws, so the data, the file
    and the preview stay for a retry. *)
Theorem handleSubmit_keeps_the_form_on_failure :
  forall (onSubmit : LostFoundItemInput -> outcome unit) (st : State),
    (falsy (trim (f_title (formData st))) = true
     \/ falsy (trim (f_description (formData st))) = true ->
     forall other, handleSubmit other st = st)
    /\ (forall error,
          onSubmit (submitData st) = Throw error ->
          handleSubmit onSubmit st = st)
    /\ formData (handleSubmit onSubmit st) = formData st
    /\ imageFile (handleSubmit onSubmit st) = imageFile st
    /\ imagePreview (handleSubmit onSubmit st) = imagePreview st.
Proof.
  intros onSubmit st. unfold handleSubmit. repeat split.
  - intros [-> | ->] other; [reflexivity|]. now rewrite orb_true_r.
  - intros error ->. now destruct (_ || _).
  - destruct (_ || _); [reflexivity|]. now destruct (onSubmit _).
  - destruct (_ || _); [reflexivity|]. now destruct (onSubmit _).
  - destruct (_ || _); [reflexivity|]. now destruct (onSubmit _).
Qed.

Lemma handleSubmit_keeps_the_form_on_failure_witness :
  handleSubmit accepted
    (acts [input (set_title (js "   ")); input (set_description (js "x"))]
       (opened None []))
  = acts [input (set_title (js "   ")); input (set_description (js "x"))]
      (opened None []).
Proof.
  destruct (handleSubmit_keeps_the_form_on_failure accepted
              (acts [input (set_title (js "   "));
                     input (set_description (js "x"))] (opened None [])))
    as (Hblank & _).
  apply Hblank. left. reflexivity.
Defined.

End FormFacts.

(** ** The previews of a form without a stored image *)

Module PreviewFacts.

Import ImageOptimizer ItemForm Invariants Scenario Cases.

Lemma existsb_revoked :
  forall u p urls,
    existsb (JS.eqb u) (revokePreviewUrl p urls) = true ->
    existsb (JS.eqb u) urls = true /\ JS.eqb u p = false.
Proof.
  intros u p urls. unfold revokePreviewUrl.
  induction urls as [|x urls IH]; cbn; [discriminate|].
  destruct (JS.eqb x p) eqn:Hxp; cbn; intro H.
  - destruct (IH H) as [H1 H2]. split; [now rewrite H1, orb_true_r | exact H2].
  - apply orb_true_iff in H as [H | H].
    + apply eqb_eq in H. subst x. split; [now rewrite eqb_refl | exact Hxp].
    + destruct (IH H) as [H1 H2].
      split; [now rewrite H1, orb_true_r | exact H2].
Qed.

Lemma filter_none {A : Type} (p : A -> bool) (l : list A) :
  (forall x, In x l -> p x = false) -> filter p l = [].
Proof.
  induction l as [|x l IH]; intro H; cbn; [reflexivity|].
  rewrite (H x (or_introl eq_refl)). apply IH.
  intros y Hy. apply H. now right.
Qed.

Lemma displayed_is_preview :
  forall u st,
    displayed u st = true ->
    closed st = false
    /\ exists shown, imagePreview st = Some shown /\ JS.eqb u shown = true.
Proof.
  intros u st H. unfold displayed in H.
  apply andb_true_iff in H as [Hopen H].
  split; [now destruct (closed st)|].
  destruct (imagePreview st) as [shown|]; [|discriminate H]. now exists shown.
Qed.

(** After [release] on such a form, no preview the form created is alive. *)
Lemma release_leaves_none :
  forall st u,
    releases_previews st ->
    In u (previews st) ->
    existsb (JS.eqb u) (release st) = true -> False.
Proof.
  intros st u (Hitem & Htruthy & Hlive) Hin H. unfold release in H.
  rewrite Hitem in H. cbn [negb] in H.
  destruct (imagePreview st) as [s|] eqn:Hshown; cbn [or_null] in H.
  - rewrite (Htruthy s eq_refl) in H.
    apply existsb_revoked in H as [Halive Hother].
    apply (Hlive u Hin) in Halive.
    apply displayed_is_preview in Halive as (_ & shown & Hs & Hsame).
    rewrite Hshown in Hs. injection Hs as <-. congruence.
  - apply (Hlive u Hin) in H.
    apply displayed_is_preview in H as (_ & shown & Hs & _).
    rewrite Hshown in Hs. discriminate Hs.
Qed.

Lemma act_keeps_releasing :
  forall a st,
    hands_out_url a -> releases_previews st -> releases_previews (act a st).
Proof.
  intros a st Hurl Hinv. unfold act.
  destruct (closed st) eqn:Hclosed; [exact Hinv|].
  assert (Hinv' := Hinv). destruct Hinv' as (Hitem & Htruthy & Hlive).
  destruct a as [c | file url | | onSubmit].
  - split; [exact Hitem | split; [exact Htruthy|]].
    intros u Hin Halive. unfold displayed. cbn.
    apply (Hlive u Hin Halive).
  - destruct (defined (imagePreview st)) eqn:Hdef; [exact Hinv|].
    unfold handleImageChange.
    destruct (negb (startsWith (file_type file) (js "image/")));
      [exact Hinv|].
    destruct (10 * MB <? size file); [exact Hinv|].
    cbn in Hurl. split; [exact Hitem | split].
    + intros s Hs. cbn in Hs. now injection Hs as <-.
    + intros u Hin Halive. unfold displayed. cbn in *. rewrite Hclosed. cbn.
      destruct (JS.eqb u url) eqn:Huu; [reflexivity|]. cbn in Halive.
      destruct Hin as [<- | Hin]; [now rewrite eqb_refl in Huu|].
      apply (Hlive u Hin) in Halive.
      apply displayed_is_preview in Halive as (_ & shown & Hs & _).
      unfold defined in Hdef. rewrite Hs in Hdef. cbn in Hdef.
      now rewrite (Htruthy shown Hs) in Hdef.
  - destruct (defined (imagePreview st)); [|exact Hinv].
    split; [exact Hitem | split].
    + intros s Hs. discriminate Hs.
    + intros u Hin Halive. cbn in Hin, Halive.
      destruct (release_leaves_none st u Hinv Hin Halive).
  - unfold handleSubmit.
    destruct (falsy (trim (f_title (formData st)))
              || falsy (trim (f_description (formData st)))); [exact Hinv|].
    destruct (onSubmit (submitData st)); [|exact Hinv].
    split; [exact Hitem | split; [exact Htruthy|]].
    intros u Hin Halive. cbn in Hin, Halive.
    destruct (release_leaves_none st u Hinv Hin Halive).
Qed.

Lemma acts_keep_releasing :
  forall l st,
    Forall hands_out_url l -> releases_previews st ->
    releases_previews (acts l st).
Proof.
  induction l as [|a l IH]; intros st Hl Hinv; [exact Hinv|].
  inversion Hl as [|a' l' Ha Hrest]; subst.
  change (acts (a :: l) st) with (acts l (act a st)).
  apply IH; [exact Hrest|]. now apply act_keeps_releasing.
Qed.

(** X25. On a form opened for a new item, or on an item that has no
    image, every preview the form created is either on display or
    revoked, after any run of typing, choosing, removing and submitting
    (the browser's object URLs being non-empty): nothing leaks. *)
Theorem form_without_image_never_leaks :
  forall (it : option LostFoundItem) (urls : ObjectURLs) (l : list action),
    defined (item_imageUrl it) = false ->
    Forall hands_out_url l ->
    leaked (acts l (opened it urls)) = [].
Proof.
  intros it urls l Hitem Hl.
  assert (Hinv : releases_previews (acts l (opened it urls))).
  { apply acts_keep_releasing; [exact Hl|].
    split; [exact Hitem | split].
    - intros s Hs. cbn in Hs. unfold defined in Hitem.
      destruct (or_null (item_imageUrl it)); discriminate.
    - intros u []. }
  destruct Hinv as (_ & _ & Hlive). unfold leaked.
  set (st := acts l (opened it urls)) in *.
  assert (Hnone : forall u, In u (previews st) ->
                    existsb (JS.eqb u) (live st) && negb (displayed u st) = false).
  { intros u Hin. destruct (existsb (JS.eqb u) (live st)) eqn:Halive;
      [|reflexivity].
    now rewrite (Hlive u Hin Halive). }
  now apply filter_none.
Qed.

Lemma form_without_image_never_leaks_witness :
  leaked (acts [choose photo blob; remove; choose photo (js "blob:2");
                input (set_title (js "Blue Backpack"));
                input (set_description (js "Left in library"));
                submit accepted] (opened None [])) = [].
Proof.
  apply (form_without_image_never_leaks None []).
  - reflexivity.
  - repeat constructor.
Defined.

End PreviewFacts.

(** ** The subscription: what is delivered and when it stops *)

Module SubscriptionFacts.

Import Supabase Subscription Invariants Scenario Cases.












(** X28. Unsubscribing does not cancel the reads that are outstanding:
    when the service answers any one of them afterwards, [callback] is
    still called, with the list [getLostFoundItems] makes of that
    answer. *)
Theorem outstanding_read_is_delivered_after_unsubscribe :
  forall (st st1 : State) (k : nat) (o : origin) (r : response (list Row)),
    step stop st = Some st1 ->
    nth_error (inflight st) k = Some o ->
    exists st2,
      run [answered k r; job] st1 = Some st2
      /\ delivered st2
         = delivered st ++ [(o, Deliveries.handed (cfg st) r)].
Proof.
  intros [c rq inf queue del i ch] st1 k o r Hstop Ho.
  cbn in Hstop, Ho |- *.
  destruct queue as [|j queue]; [|discriminate Hstop].
  injection Hstop as <-.
  unfold Deliveries.handed.
  destruct (ReadProperties.getLostFoundItems_returns c r) as [items Hitems].
  rewrite Hitems. unfold unsubscribe. cbn [cfg].
  destruct (not_configured c); cbn; unfold answer; cbn; rewrite Ho, Hitems;
    cbn; eexists; split; reflexivity.
Qed.

Lemma outstanding_read_is_delivered_after_unsubscribe_witness :
  exists st2,
    run [answered 1 (Answer (Some [bare_row]) None); job]
        (unsubscribe racing) = Some st2
    /\ delivered st2 = [(change, [keys])].
Proof.
  apply (outstanding_read_is_delivered_after_unsubscribe racing
           (unsubscribe racing) 1 change (Answer (Some [bare_row]) None));
    reflexivity.
Defined.

End SubscriptionFacts.

(** ** The reads of a loaded module *)

Module LoadedReads.

Import Supabase Scenario Cases.



End LoadedReads.
